(** * Consensus building in the multi-AI research orchestrator

    A shallow embedding of [MultiAIResearchOrchestrator]
    (archive/yardi_ai_research_system/ai_orchestrator.py) and of the provider
    adapters (ai_research_system.py), with the properties the specification
    states about them.

    Modelling conventions.
    - Python numbers ([int] and [float]) are exact rationals [Q]; rounding of
      binary floating point is not modelled.  A division is explicit about
      [ZeroDivisionError].
    - A decoded JSON value is a [pyval].  A JSON object is a [gmap] from
      strings; a Python [dict] whose iteration order is observed (the vote
      tables, the configuration) is an association list in insertion order.
    - A Python exception is a value of [exn]; code that may raise returns
      [py A].
    - A Python [set] is kept as the duplicate-free list of its members in
      insertion order; the order in which [list(s)] enumerates it is the
      parameter [set_order], about which only "every member once" is known. *)

From Stdlib Require Import QArith Lqa ZArith Permutation Ascii.
From stdpp Require Import gmap strings list.

#[local] Open Scope string_scope.
#[local] Open Scope list_scope.

(** ** Python values *)

#[warnings="-register-all"]
Inductive pyval : Type :=
| PNone
| PBool (b : bool)
| PNum (q : Q)
| PStr (s : string)
| PList (l : list pyval)
| PDict (d : gmap string pyval).

(** A decoded JSON object, e.g. one model's answer. *)
Abbreviation pydict := (gmap string pyval).

(** Truth value of an object in a condition ([if x:]). *)
Definition truthy (v : pyval) : bool :=
  match v with
  | PNone => false
  | PBool b => b
  | PNum q => negb (Qeq_bool q 0)
  | PStr s => negb (String.eqb s "")
  | PList l => match l with [] => false | _ :: _ => true end
  | PDict d => match map_to_list d with [] => false | _ :: _ => true end
  end.

(** [isinstance(v, (int, float))]: the number [v] is, if it is one.  [bool]
    is a subclass of [int]. *)
Definition numeric (v : pyval) : option Q :=
  match v with
  | PNum q => Some q
  | PBool b => Some (if b then 1%Q else 0%Q)
  | _ => None
  end.

(** [d.get(k, dflt)]. *)
Definition dict_get (d : pydict) (k : string) (dflt : pyval) : pyval :=
  default dflt (d !! k).

(** Objects that can be a [dict] key or a [set] member: JSON decoding yields no
    tuples, so exactly the scalars. *)
Definition hashable (v : pyval) : bool :=
  match v with
  | PNone | PBool _ | PNum _ | PStr _ => true
  | PList _ | PDict _ => false
  end.

(** [a == b] on hashable objects ([True == 1], [1 == 1.0]). *)
Definition key_eqb (a b : pyval) : bool :=
  match a, b with
  | PNone, PNone => true
  | PStr s, PStr t => String.eqb s t
  | PNum p, PNum q => Qeq_bool p q
  | PBool x, PBool y => Bool.eqb x y
  | PBool x, PNum q | PNum q, PBool x => Qeq_bool q (if x then 1%Q else 0%Q)
  | _, _ => false
  end.

(** ** Exceptions *)

Inductive exn : Type :=
| KeyError (k : string)
| TypeError (msg : string)
| IndexError
| AttributeError (attr : string)
| ValueError (msg : string)
| ZeroDivisionError.

Inductive py (A : Type) : Type :=
| Ok (a : A)
| Raise (e : exn).
Arguments Ok {A} a.
Arguments Raise {A} e.

#[export] Instance py_ret : MRet py := fun A a => Ok a.
#[export] Instance py_bind : MBind py := fun A B f m =>
  match m with
  | Ok a => f a
  | Raise e => Raise e
  end.

(** A [for] loop whose body may raise. *)
Fixpoint foldM {A S : Type} (body : S -> A -> py S) (s : S) (l : list A) : py S :=
  match l with
  | [] => Ok s
  | x :: l' => s' ← body s x; foldM body s' l'
  end.

(** ** Arithmetic *)

(** [sum(l)]: left to right, from [0]. *)
Definition Qsum (l : list Q) : Q := fold_left Qplus l 0%Q.

(** [a / b] (true division). *)
Definition py_div (a b : Q) : py Q :=
  if Qeq_bool b 0 then Raise ZeroDivisionError else Ok (a / b)%Q.

Definition Qlen {A : Type} (l : list A) : Q := inject_Z (Z.of_nat (length l)).

(** [max(x :: l, key=key)]: the first item whose key is largest; a later item
    replaces the current best only when its key is strictly greater. *)
Fixpoint py_max_by {A : Type} (key : A -> Q) (best : A) (l : list A) : A :=
  match l with
  | [] => best
  | x :: l' =>
      py_max_by key (if Qlt_le_dec (key best) (key x) then x else best) l'
  end.

(** ** Configuration *)

(** One entry of [config["models"]]. *)
Record model_config : Type := {
  enabled : bool;
  api_key : string;
  model_name : string;
  weight : Q;
  tasks : list string
}.

(** [config["models"]], in insertion order. *)
Definition config : Type := list (string * model_config).

Fixpoint cfg_lookup (cfg : config) (name : string) : py model_config :=
  match cfg with
  | [] => Raise (KeyError name)
  | (n, c) :: cfg' => if String.eqb n name then Ok c else cfg_lookup cfg' name
  end.

(** [self.config["models"][name]["weight"]]. *)
Definition cfg_weight (cfg : config) (name : string) : py Q :=
  c ← cfg_lookup cfg name; mret (weight c).

(** The [(model_name, result)] pairs a builder receives. *)
Abbreviation results := (list (string * pydict)).

(** [sum(self.config["models"][name]["weight"] for name, _ in results)]. *)
Definition sum_weights (cfg : config) (rs : results) : py Q :=
  foldM (fun acc '(name, _) => w ← cfg_weight cfg name; mret (acc + w)%Q) 0%Q rs.

(** ** [build_contact_consensus] *)

Definition field_mapping : list (string * list string) :=
  [ ("job_title", ["job_title"; "probable_title"; "title"]);
    ("department", ["department"]);
    ("email", ["email"; "email_estimate"; "email_address"]);
    ("linkedin", ["linkedin"; "linkedin_url"; "linkedin_profile_url"]);
    ("phone", ["phone"; "phone_number"]);
    ("seniority_level", ["seniority_level"; "seniority"]);
    ("decision_maker_level", ["decision_maker_level"; "decision_authority"]) ].

(** The inner loop over [possible_keys]: the value under the first key that is
    present with a true value; the [break] ends the search there. *)
Fixpoint first_truthy (possible_keys : list string) (result : pydict) : option pyval :=
  match possible_keys with
  | [] => None
  | key :: keys' =>
      match result !! key with
      | Some v => if truthy v then Some v else first_truthy keys' result
      | None => first_truthy keys' result
      end
  end.

Definition contact_defaults : pydict :=
  list_to_map
    [ ("job_title", PNone); ("department", PNone); ("email", PNone);
      ("linkedin", PNone); ("phone", PNone); ("seniority_level", PNone);
      ("decision_maker_level", PNone);
      ("confidence_score", PNum 0); ("consensus_strength", PNum 0) ].

(** The keys of [field_responses], in the order of the comprehension. *)
Definition contact_fields : list string :=
  [ "job_title"; "department"; "email"; "linkedin"; "phone";
    "seniority_level"; "decision_maker_level" ].

(** [result.get("confidence_score", result.get("confidence",
    result.get("confidence_level", 50)))]. *)
Definition contact_conf (result : pydict) : pyval :=
  dict_get result "confidence_score"
    (dict_get result "confidence"
       (dict_get result "confidence_level" (PNum 50))).

Module Contact.

(** The variables the loop over [results] updates. *)
Record acc : Type := {
  field_responses : gmap string (list (pyval * Q));
  confidence_scores : list Q
}.

Definition acc0 : acc :=
  {| field_responses := list_to_map (map (fun f => (f, [])) contact_fields);
     confidence_scores := [] |}.

(** The loop over [field_mapping.items()] for one result. *)
Definition collect (result : pydict) (w : Q)
    (fr : gmap string (list (pyval * Q))) : gmap string (list (pyval * Q)) :=
  foldl (fun fr '(field, possible_keys) =>
           match first_truthy possible_keys result with
           | Some v => alter (fun l => l ++ [(v, w)]) field fr
           | None => fr
           end)
        fr field_mapping.

(** Body of the loop over [results]. *)
Definition step (cfg : config) (a : acc) (r : string * pydict) : py acc :=
  let '(name, result) := r in
  w ← cfg_weight cfg name;
  let cs :=
    match numeric (contact_conf result) with
    | Some c => confidence_scores a ++ [(c * w)%Q]
    | None => confidence_scores a
    end in
  mret {| field_responses := collect result w (field_responses a);
          confidence_scores := cs |}.

(** The loop over [field_responses.items()]. *)
Definition pick (fr : gmap string (list (pyval * Q))) (c : pydict) : pydict :=
  foldl (fun c field =>
           match fr !! field with
           | Some (r :: rs) => <[field := fst (py_max_by snd r rs)]> c
           | _ => c
           end)
        c contact_fields.

End Contact.

Definition build_contact_consensus (cfg : config) (models : list string)
    (rs : results) : py pydict :=
  a ← foldM (Contact.step cfg) Contact.acc0 rs;
  let c1 := Contact.pick (Contact.field_responses a) contact_defaults in
  c2 ← match Contact.confidence_scores a with
       | [] => Ok c1
       | _ :: _ =>
           total ← sum_weights cfg rs;
           q ← py_div (Qsum (Contact.confidence_scores a)) total;
           mret (<["confidence_score" := PNum q]> c1)
       end;
  s ← py_div (Qlen rs) (Qlen models);
  mret (<["consensus_strength" := PNum s]> c2).

(** ** Python sets and vote tables *)

(** [s.add(x)] on the members in insertion order. *)
Definition set_add (x : pyval) (s : list pyval) : list pyval :=
  if existsb (key_eqb x) s then s else s ++ [x].

(** The items a [for] loop over [v] visits.  A string yields its characters, a
    [dict] its keys; numbers, booleans and [None] are not iterable. *)
Definition py_iter (v : pyval) : py (list pyval) :=
  match v with
  | PList l => Ok l
  | PStr s => Ok (map (fun c => PStr (String c "")) (String.list_ascii_of_string s))
  | PDict d => Ok (map (fun kv => PStr (fst kv)) (map_to_list d))
  | _ => Raise (TypeError "object is not iterable")
  end.

(** [s.update(v)]. *)
Definition set_update (s : list pyval) (v : pyval) : py (list pyval) :=
  items ← py_iter v;
  foldM (fun s x =>
           if hashable x then Ok (set_add x s)
           else Raise (TypeError "unhashable type"))
        s items.

(** [if v: s.update(v)]. *)
Definition set_update_if (s : list pyval) (v : pyval) : py (list pyval) :=
  if truthy v then set_update s v else Ok s.

(** [votes[k] = votes.get(k, 0) + w] on the items in insertion order: an
    existing key keeps its place. *)
Fixpoint vote_add (k : pyval) (w : Q) (votes : list (pyval * Q)) : list (pyval * Q) :=
  match votes with
  | [] => [(k, (0 + w)%Q)]
  | (k', s) :: votes' =>
      if key_eqb k' k then (k', (s + w)%Q) :: votes'
      else (k', s) :: vote_add k w votes'
  end.

(** [if k: votes[k] = votes.get(k, 0) + w]. *)
Definition vote_if (k : pyval) (w : Q) (votes : list (pyval * Q)) : py (list (pyval * Q)) :=
  if truthy k then
    if hashable k then Ok (vote_add k w votes)
    else Raise (TypeError "unhashable type")
  else Ok votes.

(** [max(votes.items(), key=lambda x: x[1])[0] if votes else dflt]. *)
Definition vote_winner (votes : list (pyval * Q)) (dflt : pyval) : pyval :=
  match votes with
  | [] => dflt
  | v :: votes' => fst (py_max_by snd v votes')
  end.

(** [a > b]. *)
Definition Qgtb (a b : Q) : bool := if Qlt_le_dec b a then true else false.

(** ** [build_email_consensus] *)

Definition email_is_valid (result : pydict) : pyval :=
  dict_get result "is_valid_format"
    (dict_get result "valid_format"
       (dict_get result "format_valid" (PBool false))).

Definition email_likelihood (result : pydict) : pyval :=
  dict_get result "business_likelihood"
    (dict_get result "business_probability" (PNum 50)).

Definition email_alternatives (result : pydict) : pyval :=
  dict_get result "alternative_patterns"
    (dict_get result "alternative_formats"
       (dict_get result "alternative_emails" (PList []))).

Module Email.

Record acc : Type := {
  valid_votes : Q;
  total_weight : Q;
  business_likelihood_scores : list Q;
  alternative_emails : list pyval
}.

Definition acc0 : acc :=
  {| valid_votes := 0; total_weight := 0;
     business_likelihood_scores := []; alternative_emails := [] |}.

Definition step (cfg : config) (a : acc) (r : string * pydict) : py acc :=
  let '(name, result) := r in
  w ← cfg_weight cfg name;
  let tw := (total_weight a + w)%Q in
  let vv := if truthy (email_is_valid result) then (valid_votes a + w)%Q
            else valid_votes a in
  let bl :=
    match numeric (email_likelihood result) with
    | Some l => business_likelihood_scores a ++ [(l * w)%Q]
    | None => business_likelihood_scores a
    end in
  alts ← set_update_if (alternative_emails a) (email_alternatives result);
  mret {| valid_votes := vv; total_weight := tw;
          business_likelihood_scores := bl; alternative_emails := alts |}.

End Email.

(** ** [build_company_consensus] *)

Definition company_industry (result : pydict) : pyval :=
  dict_get result "industry_type"
    (dict_get result "industry"
       (dict_get result "industry_classification" PNone)).

Definition company_size (result : pydict) : pyval :=
  dict_get result "company_size" (dict_get result "size_estimate" PNone).

Definition company_points (result : pydict) : pyval :=
  dict_get result "pain_points"
    (dict_get result "business_challenges"
       (dict_get result "key_challenges" (PList []))).

Definition company_opps (result : pydict) : pyval :=
  dict_get result "yardi_opportunities"
    (dict_get result "consulting_opportunities" (PList [])).

Definition company_titles (result : pydict) : pyval :=
  dict_get result "target_titles"
    (dict_get result "target_decision_makers"
       (dict_get result "decision_maker_roles"
          (dict_get result "key_decision_makers" (PList [])))).

Definition company_website (result : pydict) : pyval :=
  dict_get result "website_url"
    (dict_get result "website" (dict_get result "website_estimate" PNone)).

Definition company_linkedin (result : pydict) : pyval :=
  dict_get result "linkedin_company_url"
    (dict_get result "linkedin_company" (dict_get result "linkedin_page" PNone)).

Definition company_conf (result : pydict) : pyval :=
  dict_get result "confidence_score" (dict_get result "confidence" (PNum 50)).

Module Company.

Record acc : Type := {
  industry_votes : list (pyval * Q);
  size_votes : list (pyval * Q);
  pain_points : list pyval;
  opportunities : list pyval;
  decision_makers : list pyval;
  websites : list pyval;
  linkedin_pages : list pyval;
  confidence_scores : list Q
}.

Definition acc0 : acc :=
  {| industry_votes := []; size_votes := []; pain_points := [];
     opportunities := []; decision_makers := []; websites := [];
     linkedin_pages := []; confidence_scores := [] |}.

(** [if v: l.append(v)]. *)
Definition append_if (l : list pyval) (v : pyval) : list pyval :=
  if truthy v then l ++ [v] else l.

Definition step (cfg : config) (a : acc) (r : string * pydict) : py acc :=
  let '(name, result) := r in
  w ← cfg_weight cfg name;
  iv ← vote_if (company_industry result) w (industry_votes a);
  sv ← vote_if (company_size result) w (size_votes a);
  pp ← set_update_if (pain_points a) (company_points result);
  op ← set_update_if (opportunities a) (company_opps result);
  dm ← set_update_if (decision_makers a) (company_titles result);
  let cs :=
    match numeric (company_conf result) with
    | Some c => confidence_scores a ++ [(c * w)%Q]
    | None => confidence_scores a
    end in
  mret {| industry_votes := iv; size_votes := sv; pain_points := pp;
          opportunities := op; decision_makers := dm;
          websites := append_if (websites a) (company_website result);
          linkedin_pages := append_if (linkedin_pages a) (company_linkedin result);
          confidence_scores := cs |}.

End Company.

Section Builders.

(** The order in which [list(s)] enumerates a set, given its members in
    insertion order.  CPython fixes it by hash values and table layout. *)
Variable set_order : list pyval -> list pyval.

Definition build_email_consensus (cfg : config) (rs : results) : py pydict :=
  a ← foldM (Email.step cfg) Email.acc0 rs;
  let tw := Email.total_weight a in
  let positive := Qgtb tw 0 in
  let valid :=
    if positive then Qgtb (Email.valid_votes a / tw) (1#2) else false in
  let likelihood :=
    if positive then (Qsum (Email.business_likelihood_scores a) / tw)%Q else 0%Q in
  total ← sum_weights cfg rs;
  cc ← py_div tw total;
  mret (list_to_map
          [ ("is_valid_format", PBool valid);
            ("business_likelihood", PNum likelihood);
            ("alternative_emails", PList (set_order (Email.alternative_emails a)));
            ("consensus_confidence", PNum cc) ] : pydict).

Definition build_company_consensus (cfg : config) (rs : results) : py pydict :=
  a ← foldM (Company.step cfg) Company.acc0 rs;
  conf ← match Company.confidence_scores a with
         | [] => Ok 0%Q
         | _ :: _ => py_div (Qsum (Company.confidence_scores a)) (Qlen rs)
         end;
  mret (list_to_map
          [ ("industry_type", vote_winner (Company.industry_votes a) (PStr "Other"));
            ("company_size", vote_winner (Company.size_votes a) (PStr "Unknown"));
            ("pain_points", PList (take 5 (set_order (Company.pain_points a))));
            ("yardi_opportunities", PList (take 3 (set_order (Company.opportunities a))));
            ("target_decision_makers", PList (take 5 (set_order (Company.decision_makers a))));
            ("website_url", default PNone (head (Company.websites a)));
            ("linkedin_company_url", default PNone (head (Company.linkedin_pages a)));
            ("confidence_score", PNum conf) ] : pydict).

End Builders.

(** ** [setup_models] *)

Definition known_provider (name : string) : bool :=
  bool_decide (name ∈ ["openai"; "claude"; "gemini"; "deepseek"]).

(** The placeholder key of the default configuration,
    [f"your-{model_name}-api-key"]. *)
Definition placeholder_key (name : string) : string :=
  "your-" +:+ name +:+ "-api-key".

(** The keys of [self.models], in insertion order.  A model is registered when
    it is enabled, its key is not the placeholder and its name is one of the
    four providers; the constructors only store their arguments. *)
Definition setup_models (cfg : config) : list string :=
  foldl (fun models '(name, c) =>
           if negb (enabled c) then models
           else if String.eqb (api_key c) (placeholder_key name) then models
           else if known_provider name then
                  if bool_decide (name ∈ models) then models else models ++ [name]
                else models)
        [] cfg.

(** ** The coordinators *)

(** What [asyncio.gather(..., return_exceptions=True)] holds for one task: the
    exception it raised, as [str(e)], or the [dict] the adapter returned. *)
Inductive outcome : Type :=
| Raised (msg : string)
| Returned (result : pydict).

(** The loop that fills [tasks] and [enabled_models]. *)
Definition select_models (cfg : config) (models : list string) (task : string)
    : py (list string) :=
  foldM (fun sel name =>
           c ← cfg_lookup cfg name;
           mret (if bool_decide (task ∈ tasks c) then sel ++ [name] else sel))
        [] models.

(** [{"error": msg}]. *)
Definition error_dict (msg : string) : pydict := {[ "error" := PStr msg ]}.

(** Body of the loop over [enumerate(results)]: the state is
    [(valid_results, model_responses)]. *)
Definition classify (st : results * pydict) (r : string * outcome) : results * pydict :=
  let '(valid_results, model_responses) := st in
  let '(name, out) := r in
  match out with
  | Raised msg => (valid_results, <[name := PDict (error_dict msg)]> model_responses)
  | Returned result =>
      if bool_decide (is_Some (result !! "error"))
      then (valid_results, <[name := PDict result]> model_responses)
      else (valid_results ++ [(name, result)], <[name := PDict result]> model_responses)
  end.

(** The part the three coordinators share: select, call, classify.  [call]
    gives the outcome of each selected model's task; [no_models] and [no_valid]
    are the two error messages; [build] is the consensus builder and [finish]
    what the coordinator adds to its result.  Logging and the copy of the
    result that goes to the database are left out. *)
Definition coordinate (cfg : config) (models : list string) (task : string)
    (no_models no_valid : string) (call : string -> outcome)
    (build : results -> py pydict) (finish : results -> pydict -> pydict)
    : py pydict :=
  enabled_models ← select_models cfg models task;
  match enabled_models with
  | [] => Ok (error_dict no_models)
  | _ :: _ =>
      let outs := map (fun name => (name, call name)) enabled_models in
      let '(valid_results, model_responses) := foldl classify ([], ∅) outs in
      match valid_results with
      | [] => Ok (<["model_responses" := PDict model_responses]> (error_dict no_valid))
      | _ :: _ =>
          consensus ← build valid_results;
          mret (finish valid_results
                  (<["model_responses" := PDict model_responses]> consensus))
      end
  end.

Definition research_contact_consensus (cfg : config) (models : list string)
    (call : string -> outcome) : py pydict :=
  coordinate cfg models "contact_research"
    "No models enabled for contact research" "No valid responses from any model"
    call (build_contact_consensus cfg models)
    (fun valid c => <["models_used" := PList (map (fun r => PStr (fst r)) valid)]> c).

Definition verify_email_consensus (set_order : list pyval -> list pyval)
    (cfg : config) (models : list string) (call : string -> outcome) : py pydict :=
  coordinate cfg models "email_verification"
    "No models enabled for email verification" "No valid responses"
    call (build_email_consensus set_order cfg) (fun _ c => c).

Definition analyze_company_consensus (set_order : list pyval -> list pyval)
    (cfg : config) (models : list string) (call : string -> outcome) : py pydict :=
  coordinate cfg models "company_analysis"
    "No models enabled for company analysis" "No valid responses"
    call (build_company_consensus set_order cfg) (fun _ c => c).

(** ** The provider adapters *)

(** [str(e)]. *)
Definition exn_str (e : exn) : string :=
  match e with
  | KeyError k => "'" +:+ k +:+ "'"
  | TypeError msg => msg
  | IndexError => "index out of range"
  | AttributeError attr => "object has no attribute '" +:+ attr +:+ "'"
  | ValueError msg => msg
  | ZeroDivisionError => "division by zero"
  end.

(** [v[k]] for a string [k]. *)
Definition getitem (v : pyval) (k : string) : py pyval :=
  match v with
  | PDict d =>
      match d !! k with
      | Some x => Ok x
      | None => Raise (KeyError k)
      end
  | PList _ => Raise (TypeError "list indices must be integers or slices, not str")
  | PStr _ => Raise (TypeError "string indices must be integers, not 'str'")
  | _ => Raise (TypeError "object is not subscriptable")
  end.

(** [v[0]].  A decoded JSON object has string keys only. *)
Definition getitem0 (v : pyval) : py pyval :=
  match v with
  | PList (x :: _) => Ok x
  | PList [] => Raise IndexError
  | PStr (String c _) => Ok (PStr (String c ""))
  | PStr EmptyString => Raise IndexError
  | PDict _ => Raise (KeyError "0")
  | _ => Raise (TypeError "object is not subscriptable")
  end.

(** ["error" in v]. *)
Definition contains_error (v : pyval) : py bool :=
  match v with
  | PDict d => Ok (bool_decide (is_Some (d !! "error")))
  | PStr s => Ok (bool_decide (is_Some (String.index 0 "error" s)))
  | PList l =>
      Ok (existsb (fun x => match x with
                            | PStr t => String.eqb t "error"
                            | _ => false
                            end) l)
  | _ => Raise (TypeError "argument is not iterable")
  end.

Fixpoint find_from (c : Ascii.ascii) (s : string) (i : Z) : Z :=
  match s with
  | EmptyString => (-1)%Z
  | String a s' => if Ascii.eqb a c then i else find_from c s' (i + 1)%Z
  end.

(** [s.find(c)] for a one-character [c]. *)
Definition str_find (c : Ascii.ascii) (s : string) : Z := find_from c s 0%Z.

Fixpoint rfind_from (c : Ascii.ascii) (s : string) (i last : Z) : Z :=
  match s with
  | EmptyString => last
  | String a s' => rfind_from c s' (i + 1)%Z (if Ascii.eqb a c then i else last)
  end.

(** [s.rfind(c)] for a one-character [c]. *)
Definition str_rfind (c : Ascii.ascii) (s : string) : Z := rfind_from c s 0%Z (-1)%Z.

(** [s[start:stop]]: a negative bound counts from the end, and both are
    clamped to the string. *)
Definition py_slice (s : string) (start stop : Z) : string :=
  let n := Z.of_nat (String.length s) in
  let clamp i := if (i <? 0)%Z then Z.max (i + n) 0 else Z.min i n in
  let a := clamp start in
  let b := clamp stop in
  String.substring (Z.to_nat a) (Z.to_nat (b - a)) s.

Inductive provider : Type := OpenAI | Claude | Gemini | DeepSeek.

(** The prefix of the ["model"] entry an adapter adds to its result. *)
Definition provider_label (p : provider) : string :=
  match p with
  | OpenAI => "OpenAI "
  | Claude => "Claude "
  | Gemini => "Gemini "
  | DeepSeek => "DeepSeek "
  end.

(** Where the provider's reply holds the generated text. *)
Definition reply_content (p : provider) (response : pyval) : py pyval :=
  match p with
  | OpenAI | DeepSeek =>
      (* response["choices"][0]["message"]["content"] *)
      a ← getitem response "choices"; b ← getitem0 a;
      c ← getitem b "message"; getitem c "content"
  | Claude =>
      (* response["content"][0]["text"] *)
      a ← getitem response "content"; b ← getitem0 a; getitem b "text"
  | Gemini =>
      (* response["candidates"][0]["content"]["parts"][0]["text"] *)
      a ← getitem response "candidates"; b ← getitem0 a;
      c ← getitem b "content"; d ← getitem c "parts";
      e ← getitem0 d; getitem e "text"
  end.

(** What [requests.post], [raise_for_status] and [response.json()] come to:
    an exception, or the decoded body. *)
Inductive http_reply : Type :=
| HttpRaised (msg : string)
| HttpBody (body : pyval).

(** [_make_request]: the [try] covers the whole exchange. *)
Definition make_request (reply : http_reply) : pyval :=
  match reply with
  | HttpRaised msg => PDict (error_dict msg)
  | HttpBody body => body
  end.

Section Adapter.

(** [json.loads]. *)
Variable json_loads : string -> py pyval.

(** The [try] block of an adapter method. *)
Definition parse_reply (p : provider) (model_name : string) (response : pyval)
    : py pyval :=
  content ← reply_content p response;
  match content with
  | PStr text =>
      let start := str_find "{"%char text in
      let stop := (str_rfind "}"%char text + 1)%Z in
      let json_str := py_slice text start stop in
      result ← json_loads json_str;
      match result with
      | PDict d => Ok (PDict (<["model" := PStr (provider_label p +:+ model_name)]> d))
      | _ => Raise (TypeError "object does not support item assignment")
      end
  | _ => Raise (AttributeError "find")
  end.

(** [research_contact], [verify_email] and [analyze_company] of every
    provider: they differ in the prompt only, which reaches the code through
    the provider's reply.  [Raise] is an exception that leaves the method. *)
Definition adapter_call (p : provider) (model_name : string) (reply : http_reply)
    : py pyval :=
  let response := make_request reply in
  is_error ← contains_error response;
  if is_error : bool then Ok response
  else
    match parse_reply p model_name response with
    | Ok result => Ok result
    | Raise e => Ok (PDict (error_dict ("Parse error: " +:+ exn_str e)))
    end.

End Adapter.

(** ** Worked examples *)

Module Examples.

Definition mk (w : Q) (ts : list string) : model_config :=
  {| enabled := true; api_key := "sk-live"; model_name := "m";
     weight := w; tasks := ts |}.

Definition all_tasks : list string :=
  ["contact_research"; "email_verification"; "company_analysis"].

(** Three sources weighted 0.3, 0.5 and 0.2. *)
Definition cfg352 : config :=
  [ ("openai", mk (3#10) all_tasks); ("claude", mk (5#10) all_tasks);
    ("gemini", mk (2#10) all_tasks) ].

Definition names3 : list string := ["openai"; "claude"; "gemini"].

(** Opinions A, B, A on one scalar field. *)
Definition ABA (field : string) : results :=
  [ ("openai", {[ field := PStr "A" ]});
    ("claude", {[ field := PStr "B" ]});
    ("gemini", {[ field := PStr "A" ]}) ].

(** Two email verdicts: one "valid", one "invalid". *)
Definition email2 : results :=
  [ ("openai", {[ "is_valid_format" := PBool true;
                  "business_likelihood" := PNum 80;
                  "alternative_patterns" := PList [PStr "a@x.com"; PStr "b@x.com"] ]});
    ("gemini", {[ "format_valid" := PBool false;
                  "alternative_emails" := PList [PStr "b@x.com"] ]}) ].

(** A single source, and the payload of the alias example. *)
Definition cfg1 : config := [ ("deepseek", mk (2#10) all_tasks) ].

Definition vp_sales : pydict :=
  {[ "probable_title" := PStr "VP Sales"; "title" := PStr "Director" ]}.

(** One company opinion with confidence 80 from a source of weight 0.3. *)
Definition company_conf80 : results :=
  [ ("openai", {[ "industry_type" := PStr "REIT"; "confidence_score" := PNum 80 ]}) ].

(** Two contact opinions; the second gives its confidence in words. *)
Definition contact_conf_words : results :=
  [ ("openai", {[ "job_title" := PStr "Director"; "confidence_score" := PNum 80 ]});
    ("claude", {[ "job_title" := PStr "Director"; "confidence_score" := PStr "high" ]}) ].

(** Two configured sources, the second one disabled. *)
Definition cfg_one_disabled : config :=
  [ ("openai", mk (3#10) all_tasks);
    ("claude", {| enabled := false; api_key := "sk-live"; model_name := "m";
                  weight := 3#10; tasks := all_tasks |}) ].

Definition one_title : results :=
  [ ("openai", {[ "job_title" := PStr "Director" ]}) ].

(** Two company opinions whose lists overlap and exceed the caps. *)
Definition company2 : results :=
  [ ("openai",
     {[ "industry_type" := PStr "REIT";
        "pain_points" := PList [PStr "p1"; PStr "p2"; PStr "p3"; PStr "p4"];
        "yardi_opportunities" := PList [PStr "o1"; PStr "o2"];
        "target_titles" := PList [PStr "CEO"; PStr "COO"];
        "website_url" := PStr "a.com" ]});
    ("gemini",
     {[ "industry" := PStr "REIT";
        "business_challenges" :=
          PList [PStr "p3"; PStr "p4"; PStr "p5"; PStr "p6"; PStr "p7"];
        "consulting_opportunities" := PList [PStr "o2"; PStr "o3"; PStr "o4"];
        "key_decision_makers" := PList [PStr "COO"; PStr "CFO"];
        "website" := PStr "b.com" ]}) ].

(** A decoder that accepts one text, for the adapter examples. *)
Definition loads_empty (s : string) : py pyval :=
  if String.eqb s "{}" then Ok (PDict ∅)
  else Raise (ValueError "Expecting value").

(** A reply of the OpenAI shape whose text embeds the object [{}]. *)
Definition openai_reply : http_reply :=
  HttpBody
    (PDict {[ "choices" :=
                PList [PDict {[ "message" :=
                                  PDict {[ "content" := PStr "Here it is: {} Done." ]} ]}] ]}).

(** Three sources weighted 0.5, 0.5 and 0.2, and opinions A, B, B. *)
Definition cfg552 : config :=
  [ ("openai", mk (5#10) all_tasks); ("claude", mk (5#10) all_tasks);
    ("gemini", mk (2#10) all_tasks) ].

Definition titles_ABB : results :=
  [ ("openai", {[ "job_title" := PStr "A" ]});
    ("claude", {[ "job_title" := PStr "B" ]});
    ("gemini", {[ "job_title" := PStr "B" ]}) ].

(** The same opinions with the first two exchanged. *)
Definition titles_BAB : results :=
  [ ("claude", {[ "job_title" := PStr "B" ]});
    ("openai", {[ "job_title" := PStr "A" ]});
    ("gemini", {[ "job_title" := PStr "B" ]}) ].


(** A company opinion whose pain points are one string. *)
Definition company_string : pydict :=
  {[ "industry_type" := PStr "REIT"; "pain_points" := PStr "billing" ]}.

(** A company opinion whose industry is a list. *)
Definition company_list_industry : pydict :=
  {[ "industry_type" := PList [PStr "REIT"; PStr "Senior Living"] ]}.

End Examples.

(** ** Notions used in the statements *)

(** [name] is a key of [config["models"]]. *)
Definition configured (cfg : config) (name : string) : Prop :=
  exists c, cfg_lookup cfg name = Ok c.

(** The weight of a configured model, and [0] for an unknown name. *)
Definition weight_of (cfg : config) (name : string) : Q :=
  match cfg_lookup cfg name with
  | Ok c => weight c
  | Raise _ => 0%Q
  end.

(** The weights of the models that answered. *)
Definition weights (cfg : config) (rs : results) : list Q :=
  map (fun r => weight_of cfg (fst r)) rs.

(** The summed weight of the opinions whose value equals [v]. *)
Definition tally (v : pyval) (ops : list (pyval * Q)) : Q :=
  Qsum (map snd (List.filter (fun o => key_eqb (fst o) v) ops)).

(** Weighted plurality with the first-encountered tie-break: [win] is the
    value of an opinion; every value met before it has a strictly smaller
    summed weight, and no value has a larger one. *)
Definition plurality_winner (ops : list (pyval * Q)) (win : pyval) : Prop :=
  exists pre w post,
    ops = pre ++ (win, w) :: post /\
    (forall o, o ∈ pre ->
       key_eqb (fst o) win = false /\ (tally (fst o) ops < tally win ops)%Q) /\
    (forall o, o ∈ post -> (tally (fst o) ops <= tally win ops)%Q).

(** [win] is the value of the first opinion whose own weight is largest. *)
Definition heaviest_first (ops : list (pyval * Q)) (win : pyval) : Prop :=
  exists pre w post,
    ops = pre ++ (win, w) :: post /\
    (forall o, o ∈ pre -> (snd o < w)%Q) /\
    (forall o, o ∈ post -> (snd o <= w)%Q).

(** The opinions on a field that one of the [get] chains reads: the true
    values, each with the weight of its model. *)
Definition scalar_opinions (get : pydict -> pyval) (cfg : config) (rs : results)
    : list (pyval * Q) :=
  omap (fun r => if truthy (get (snd r))
                 then Some (get (snd r), weight_of cfg (fst r))
                 else None) rs.

(** The opinions on a contact field, by its aliases. *)
Definition contact_opinions (aliases : list string) (cfg : config) (rs : results)
    : list (pyval * Q) :=
  omap (fun r => v ← first_truthy aliases (snd r);
                 Some (v, weight_of cfg (fst r))) rs.

(** The table [votes] after the votes [ops], one after the other. *)
Definition votes_of (ops : list (pyval * Q)) (votes : list (pyval * Q))
    : list (pyval * Q) :=
  foldl (fun votes o => vote_add (fst o) (snd o) votes) votes ops.

(** The entry of a key that opens the table, after further votes. *)
Definition tally_from (s : Q) (v : pyval) (ops : list (pyval * Q)) : Q :=
  fold_left (fun acc o => if key_eqb v (fst o) then (acc + snd o)%Q else acc) ops s.

(** The votes for other values than [v]. *)
Definition others (v : pyval) (ops : list (pyval * Q)) : list (pyval * Q) :=
  List.filter (fun o => negb (key_eqb v (fst o))) ops.


(** The items [if v: s.update(v)] adds to a set. *)
Definition items_of (v : pyval) : list pyval :=
  if truthy v then
    match py_iter v with
    | Ok items => items
    | Raise _ => []
    end
  else [].

(** All the items the results list under one of the [get] chains. *)
Definition collected (get : pydict -> pyval) (rs : results) : list pyval :=
  concat (map (fun r => items_of (get (snd r))) rs).

(** The set [s] after adding [items], one after the other. *)
Definition set_of (items : list pyval) (s : list pyval) : list pyval :=
  foldl (fun s x => set_add x s) s items.

(** The true values under one of the [get] chains, in the order of the
    results. *)
Definition truthy_values (get : pydict -> pyval) (rs : results) : list pyval :=
  List.filter truthy (map (fun r => get (snd r)) rs).

(** [conf * weight] for the results whose confidence is a number. *)
Definition weighted_scores (get : pydict -> pyval) (cfg : config) (rs : results)
    : list Q :=
  omap (fun r => c ← numeric (get (snd r));
                 Some (c * weight_of cfg (fst r))%Q) rs.

(** A value the vote tables accept: false, or hashable. *)
Definition votable (v : pyval) : bool := negb (truthy v) || hashable v.

(** A value the sets accept: false, or iterable with hashable items. *)
Definition collectable (v : pyval) : bool :=
  negb (truthy v) ||
  match py_iter v with
  | Ok items => forallb hashable items
  | Raise _ => false
  end.

Definition is_configured (cfg : config) (name : string) : bool :=
  match cfg_lookup cfg name with
  | Ok _ => true
  | Raise _ => false
  end.

(** Every model that answered has a positive weight in the configuration. *)
Definition positive_weights (cfg : config) (rs : results) : bool :=
  forallb (fun r => is_configured cfg (fst r) && Qgtb (weight_of cfg (fst r)) 0) rs.

(** The company results [build_company_consensus] accepts: the models are
    configured, the votes are hashable and the lists can be merged. *)
Definition company_ok (cfg : config) (rs : results) : bool :=
  forallb (fun r =>
             is_configured cfg (fst r)
             && votable (company_industry (snd r))
             && votable (company_size (snd r))
             && collectable (company_points (snd r))
             && collectable (company_opps (snd r))
             && collectable (company_titles (snd r))) rs.


(** The contact results [build_contact_consensus] accepts. *)
Definition contact_ok (cfg : config) (models : list string) (rs : results) : bool :=
  positive_weights cfg rs
  && match rs with [] => false | _ :: _ => true end
  && match models with [] => false | _ :: _ => true end.

(** What one result adds to the responses of a field with these aliases. *)
Definition responses_of (aliases : list string) (result : pydict) (w : Q)
    : list (pyval * Q) :=
  match first_truthy aliases result with
  | Some v => [(v, w)]
  | None => []
  end.

(** [field_responses] after the loop over [results]. *)
Definition collect_all (cfg : config) (rs : results)
    (fr : gmap string (list (pyval * Q))) : gmap string (list (pyval * Q)) :=
  foldl (fun fr r => Contact.collect (snd r) (weight_of cfg (fst r)) fr) fr rs.

(** The value [max] picks among the responses of a field, [dflt] without
    responses. *)
Definition heaviest (responses : list (pyval * Q)) (dflt : pyval) : pyval :=
  match responses with
  | [] => dflt
  | r :: rs => fst (py_max_by snd r rs)
  end.

(** The [confidence_score] of the contact consensus. *)
Definition contact_confidence (cfg : config) (rs : results) : Q :=
  match weighted_scores contact_conf cfg rs with
  | [] => 0%Q
  | _ :: _ => (Qsum (weighted_scores contact_conf cfg rs) / Qsum (weights cfg rs))%Q
  end.

(** The [confidence_score] of the company consensus. *)
Definition company_confidence (cfg : config) (rs : results) : Q :=
  match weighted_scores company_conf cfg rs with
  | [] => 0%Q
  | _ :: _ => (Qsum (weighted_scores company_conf cfg rs) / Qlen rs)%Q
  end.



(** The test [setup_models] applies to an entry of the configuration. *)
Definition registers (name : string) (c : model_config) : bool :=
  enabled c && negb (String.eqb (api_key c) (placeholder_key name))
  && known_provider name.

(** No two members of [l] are equal as keys. *)
Fixpoint distinct_keys (l : list pyval) : Prop :=
  match l with
  | [] => True
  | x :: l' => (forall y, y ∈ l' -> key_eqb x y = false) /\ distinct_keys l'
  end.

(** [u] enumerates the de-duplicated union of [items]: its members are
    pairwise different, each is one of the items, and every item equals one
    of them. *)
Definition dedup_union (items u : list pyval) : Prop :=
  distinct_keys u /\
  (forall x, x ∈ u -> x ∈ items) /\
  (forall x, x ∈ items -> exists y, y ∈ u /\ key_eqb y x = true).


(** ** Notions about the coordinators *)

(** [name] is registered for [task]: the test of the selection loop. *)
Definition eligible (cfg : config) (task : string) (name : string) : bool :=
  match cfg_lookup cfg name with
  | Ok c => bool_decide (task ∈ tasks c)
  | Raise _ => false
  end.

(** The enabled, task-eligible sources. *)
Definition eligible_models (cfg : config) (task : string) : list string :=
  List.filter (eligible cfg task) (setup_models cfg).

(** An outcome the coordinator counts as a failure: an exception, or a
    [dict] with an ["error"] entry. *)
Definition failed (out : outcome) : bool :=
  match out with
  | Raised _ => true
  | Returned result => bool_decide (is_Some (result !! "error"))
  end.

(** What [model_responses] keeps of an outcome. *)
Definition recorded (out : outcome) : pydict :=
  match out with
  | Raised msg => error_dict msg
  | Returned result => result
  end.

(** The outcomes that are not failures, in the order of the models. *)
Definition valid_of (call : string -> outcome) (names : list string) : results :=
  omap (fun name =>
          match call name with
          | Raised _ => None
          | Returned result =>
              if bool_decide (is_Some (result !! "error")) then None
              else Some (name, result)
          end) names.

(** [model_responses] after the outcomes of [names]. *)
Definition responses_from (call : string -> outcome) (names : list string)
    (model_responses : pydict) : pydict :=
  foldl (fun m name => <[name := PDict (recorded (call name))]> m)
        model_responses names.

(** Every configured weight is positive. *)
Definition positive_config (cfg : config) : bool :=
  forallb (fun nc => Qgtb (weight (snd nc)) 0) cfg.

(** ** Notions about the order of the results *)









(** ** Notions about bounds and edge cases *)

(** [a <= b]. *)
Definition Qleb (a b : Q) : bool := if Qlt_le_dec b a then false else true.

(** Every confidence that is a number lies between 0 and 100. *)
Definition confidences_in_range (get : pydict -> pyval) (rs : results) : bool :=
  forallb (fun r => match numeric (get (snd r)) with
                    | Some c => Qleb 0 c && Qleb c 100
                    | None => true
                    end) rs.

(** No model that answered weighs more than 1. *)
Definition weights_at_most_one (cfg : config) (rs : results) : bool :=
  forallb (fun r => Qleb (weight_of cfg (fst r)) 1) rs.

(** The one-character strings of [s], as a loop over the string yields them. *)
Definition characters (s : string) : list pyval :=
  map (fun c => PStr (String c "")) (String.list_ascii_of_string s).

(** The exception is a [KeyError] or a [TypeError]. *)
Definition key_or_type_error (e : exn) : Prop :=
  match e with
  | KeyError _ | TypeError _ => True
  | _ => False
  end.

(** The test of [company_ok] for one result. *)
Definition company_result_ok (cfg : config) (r : string * pydict) : bool :=
  is_configured cfg (fst r)
  && votable (company_industry (snd r))
  && votable (company_size (snd r))
  && collectable (company_points (snd r))
  && collectable (company_opps (snd r))
  && collectable (company_titles (snd r)).



(** ** The default configuration *)

(** An entry of the default configuration that [load_config] writes: enabled,
    with the key ["your-<name>-api-key"]. *)
Definition default_entry (name model : string) (w : Q) (ts : list string)
    : string * model_config :=
  (name, {| enabled := true; api_key := "your-" +:+ name +:+ "-api-key";
            model_name := model; weight := w; tasks := ts |}).

(** [default_config["models"]] of [load_config]. *)
Definition default_config : config :=
  [ default_entry "openai" "gpt-4" (3#10)
      ["contact_research"; "email_verification"; "company_analysis"];
    default_entry "claude" "claude-3-sonnet-20240229" (3#10)
      ["contact_research"; "email_verification"; "company_analysis"];
    default_entry "gemini" "gemini-pro" (2#10)
      ["contact_research"; "company_analysis"];
    default_entry "deepseek" "deepseek-chat" (2#10)
      ["contact_research"; "email_verification"] ].

(** No entry of the configuration passes the test of [setup_models]. *)
Definition none_registers (cfg : config) : bool :=
  forallb (fun nc => negb (registers (fst nc) (snd nc))) cfg.

(** The models among [names] whose call did not fail. *)
Definition answered (call : string -> outcome) (names : list string) : list string :=
  List.filter (fun n => negb (failed (call n))) names.

(** ** Notions about the adapters *)

(** [c in s] for a character [c]. *)
Fixpoint has_char (c : Ascii.ascii) (s : string) : bool :=
  match s with
  | EmptyString => false
  | String a s' => Ascii.eqb a c || has_char c s'
  end.

(** The text an adapter hands to [json.loads]: from the first opening to the
    last closing brace. *)
Definition json_span (text : string) : string :=
  py_slice text (str_find "{"%char text) (str_rfind "}"%char text + 1)%Z.

(** A decoded body that is neither a [dict], a list nor a string. *)
Definition scalar_body (body : pyval) : bool :=
  match body with
  | PNone | PBool _ | PNum _ => true
  | _ => false
  end.

(** ** Notions about the callers *)



(** [config["models"][name]["tasks"] = ts]. *)
Definition set_tasks (cfg : config) (name : string) (ts : list string) : config :=
  map (fun nc =>
         (fst nc,
          if String.eqb (fst nc) name
          then {| enabled := enabled (snd nc); api_key := api_key (snd nc);
                  model_name := model_name (snd nc); weight := weight (snd nc);
                  tasks := ts |}
          else snd nc)) cfg.

(** [configure_model_selection] of the lead researcher: the loop over
    [model_tasks.items()], in their order. *)
Definition configure_model_selection (cfg : config)
    (model_tasks : list (string * list string)) : config :=
  foldl (fun cfg '(name, ts) =>
           if is_configured cfg name then set_tasks cfg name ts else cfg)
        cfg model_tasks.

(** The task list [model_tasks] gives a model, if it names the model: its
    last entry for that name. *)
Definition assigned_tasks (model_tasks : list (string * list string)) (name : string)
    : option (list string) :=
  snd <$> last (List.filter (fun e => String.eqb (fst e) name) model_tasks).

(** Whether a model takes part in a task after [configure_model_selection]. *)
Definition takes_part (cfg : config) (model_tasks : list (string * list string))
    (task : string) (name : string) : bool :=
  match assigned_tasks model_tasks name with
  | Some ts => bool_decide (task ∈ ts)
  | None => eligible cfg task name
  end.
(** * Properties *)

Example contact_ABA :
  (c ← build_contact_consensus Examples.cfg352 Examples.names3 (Examples.ABA "job_title");
   mret (c !! "job_title")) = Ok (Some (PStr "B")).
Proof. vm_compute. reflexivity. Qed.

Example company_ABA :
  (c ← build_company_consensus id Examples.cfg352 (Examples.ABA "industry_type");
   mret (c !! "industry_type")) = Ok (Some (PStr "A")).
Proof. vm_compute. reflexivity. Qed.

(** ** Sums of rationals *)

Section QsumFacts.
#[local] Open Scope Q_scope.

Lemma fold_left_Qplus (l : list Q) (a : Q) :
  fold_left Qplus l a == a + Qsum l.
Proof.
  unfold Qsum. revert a.
  induction l as [|x l IH]; intros a; simpl.
  - lra.
  - rewrite IH, (IH (0 + x)). lra.
Qed.

Lemma Qsum_nil : Qsum [] = 0.
Proof. reflexivity. Qed.

Lemma Qsum_cons (x : Q) (l : list Q) : Qsum (x :: l) == x + Qsum l.
Proof. unfold Qsum at 1. simpl. rewrite fold_left_Qplus. lra. Qed.

Lemma Qsum_snoc (l : list Q) (x : Q) : Qsum (l ++ [x]) = Qsum l + x.
Proof. unfold Qsum. rewrite fold_left_app. reflexivity. Qed.


Lemma Qsum_nonneg (l : list Q) : Forall (fun x => 0 <= x) l -> 0 <= Qsum l.
Proof.
  induction 1 as [|x l Hx _ IH].
  - rewrite Qsum_nil. lra.
  - rewrite Qsum_cons. lra.
Qed.

Lemma Qsum_pos (l : list Q) : l <> [] -> Forall (fun x => 0 < x) l -> 0 < Qsum l.
Proof.
  intros Hne Hall. destruct Hall as [|x l Hx Hl]; [congruence|].
  rewrite Qsum_cons.
  assert (0 <= Qsum l); [|lra].
  apply Qsum_nonneg. eapply Forall_impl; [exact Hl|]. simpl. intros; lra.
Qed.

Lemma Qpos_neq0 (x : Q) : 0 < x -> ~ x == 0.
Proof. intros H E. rewrite E in H. exact (Qlt_irrefl 0 H). Qed.

Lemma Qlen_nonneg {A : Type} (l : list A) : 0 <= Qlen l.
Proof. unfold Qlen, Qle. simpl. lia. Qed.

Lemma Qlen_pos {A : Type} (l : list A) : l <> [] -> 0 < Qlen l.
Proof.
  intros H. destruct l as [|x l]; [congruence|].
  unfold Qlen, Qlt. simpl. lia.
Qed.

Lemma Qlen_le {A B : Type} (l : list A) (k : list B) :
  (length l <= length k)%nat -> Qlen l <= Qlen k.
Proof. intros H. unfold Qlen, Qle. simpl. lia. Qed.

Lemma py_div_ok (a b : Q) : ~ b == 0 -> py_div a b = Ok (a / b).
Proof.
  intros H. unfold py_div.
  destruct (Qeq_bool b 0) eqn:E; [|reflexivity].
  apply Qeq_bool_iff in E. contradiction.
Qed.

Lemma Qgtb_true (a b : Q) : Qgtb a b = true <-> b < a.
Proof. unfold Qgtb. destruct (Qlt_le_dec b a); split; intros; try lra; congruence. Qed.


End QsumFacts.

(** ** Loops that may raise *)

Lemma bind_Ok {A B : Type} (m : py A) (f : A -> py B) (b : B) :
  (m ≫= f) = Ok b <-> exists a, m = Ok a /\ f a = Ok b.
Proof.
  destruct m as [a|e]; simpl; split.
  - intros H. exists a. split; [reflexivity|exact H].
  - intros (a' & [= <-] & H). exact H.
  - discriminate.
  - intros (a' & [=] & _).
Qed.

(** ** The configuration *)



Lemma cfg_weight_configured (cfg : config) (name : string) :
  configured cfg name -> cfg_weight cfg name = Ok (weight_of cfg name).
Proof.
  intros [c Hc]. unfold cfg_weight, weight_of. rewrite Hc. reflexivity.
Qed.

Lemma cfg_lookup_In (cfg : config) (name : string) (c : model_config) :
  cfg_lookup cfg name = Ok c -> In (name, c) cfg.
Proof.
  induction cfg as [|[n c'] cfg IH]; simpl; [discriminate|].
  destruct (String.eqb n name) eqn:E.
  - apply String.eqb_eq in E. intros [= <-]. left. congruence.
  - intros H. right. exact (IH H).
Qed.

Lemma cfg_lookup_configured (cfg : config) (name : string) (c : model_config) :
  In (name, c) cfg -> configured cfg name.
Proof.
  induction cfg as [|[n c'] cfg IH]; simpl; [tauto|].
  intros [[= -> ->]|H]; unfold configured; simpl.
  - rewrite String.eqb_refl. eauto.
  - destruct (String.eqb n name); [eauto|]. exact (IH H).
Qed.


Lemma sum_weights_from (cfg : config) (rs : results) (a : Q) :
  Forall (fun r => configured cfg (fst r)) rs ->
  foldM (fun acc '(name, _) => w ← cfg_weight cfg name; mret (acc + w)%Q) a rs
  = Ok (fold_left Qplus (weights cfg rs) a).
Proof.
  intros H. revert a. induction H as [|[name result] rs Hc _ IH]; intros a; simpl.
  - reflexivity.
  - simpl in Hc. rewrite (cfg_weight_configured _ _ Hc). simpl. apply IH.
Qed.

Lemma sum_weights_configured (cfg : config) (rs : results) :
  Forall (fun r => configured cfg (fst r)) rs ->
  sum_weights cfg rs = Ok (Qsum (weights cfg rs)).
Proof. apply sum_weights_from. Qed.

(** ** Equality of keys *)

Lemma key_eqb_refl (v : pyval) : hashable v = true -> key_eqb v v = true.
Proof.
  destruct v as [|b|q|s|l|d]; simpl; try discriminate; intros _.
  - reflexivity.
  - destruct b; reflexivity.
  - apply Qeq_bool_iff. reflexivity.
  - apply String.eqb_refl.
Qed.

Lemma key_eqb_sym (a b : pyval) : key_eqb a b = key_eqb b a.
Proof.
  destruct a as [|x|p|s|l|d], b as [|y|q|t|k|e]; simpl; try reflexivity.
  - destruct x, y; reflexivity.
  - destruct (Qeq_bool p q) eqn:E1, (Qeq_bool q p) eqn:E2; try reflexivity.
    + apply Qeq_bool_iff in E1. symmetry in E1. apply Qeq_bool_iff in E1. congruence.
    + apply Qeq_bool_iff in E2. symmetry in E2. apply Qeq_bool_iff in E2. congruence.
  - apply String.eqb_sym.
Qed.

Lemma key_eqb_trans (a b c : pyval) :
  key_eqb a b = true -> key_eqb b c = true -> key_eqb a c = true.
Proof.
  destruct a as [|x|p|s|l|d], b as [|y|q|t|k|e], c as [|z|r|u|m|f]; simpl;
    try discriminate; try reflexivity;
    rewrite ?Qeq_bool_iff, ?Bool.eqb_true_iff, ?String.eqb_eq; try congruence;
    intros H1 H2;
    repeat match goal with
           | v : bool |- _ => destruct v
           end;
    try reflexivity; try lra; exfalso; lra.
Qed.

Lemma key_eqb_swap (a b c : pyval) :
  key_eqb a b = true -> key_eqb a c = key_eqb b c.
Proof.
  intros H.
  destruct (key_eqb a c) eqn:E1, (key_eqb b c) eqn:E2; try reflexivity.
  - rewrite key_eqb_sym in H. rewrite (key_eqb_trans _ _ _ H E1) in E2. discriminate.
  - rewrite (key_eqb_trans _ _ _ H E2) in E1. discriminate.
Qed.

(** ** [max] with a key *)

Section MaxBy.
#[local] Open Scope Q_scope.
Context {A : Type} (key : A -> Q).

Lemma py_max_by_split (l pre post : list A) (best : A) :
  (forall y, y ∈ pre -> key y < key best) ->
  (forall y, y ∈ post -> key y <= key best) ->
  exists pre' post',
    pre ++ best :: post ++ l = pre' ++ py_max_by key best l :: post' /\
    (forall y, y ∈ pre' -> key y < key (py_max_by key best l)) /\
    (forall y, y ∈ post' -> key y <= key (py_max_by key best l)).
Proof.
  revert pre post best.
  induction l as [|x l IH]; intros pre post best Hpre Hpost; simpl.
  - exists pre, post. rewrite app_nil_r. auto.
  - destruct (Qlt_le_dec (key best) (key x)) as [Hlt|Hle].
    + destruct (IH (pre ++ best :: post) [] x) as (pre' & post' & Heq & H1 & H2).
      * intros y Hy. apply elem_of_app in Hy as [Hy|Hy].
        -- specialize (Hpre y Hy). lra.
        -- apply elem_of_cons in Hy as [->|Hy]; [exact Hlt|].
           specialize (Hpost y Hy). lra.
      * intros y Hy. apply elem_of_nil in Hy. contradiction.
      * exists pre', post'. split; [|auto].
        rewrite <- Heq. simpl. rewrite <- !app_assoc. reflexivity.
    + destruct (IH pre (post ++ [x]) best) as (pre' & post' & Heq & H1 & H2).
      * exact Hpre.
      * intros y Hy. apply elem_of_app in Hy as [Hy|Hy]; [auto|].
        apply list_elem_of_singleton in Hy as ->. exact Hle.
      * exists pre', post'. split; [|auto].
        rewrite <- Heq. rewrite <- !app_assoc. reflexivity.
Qed.

(** [max] returns the first item of largest key. *)
Lemma py_max_by_first (x : A) (l : list A) :
  exists pre post,
    x :: l = pre ++ py_max_by key x l :: post /\
    (forall y, y ∈ pre -> key y < key (py_max_by key x l)) /\
    (forall y, y ∈ post -> key y <= key (py_max_by key x l)).
Proof.
  destruct (py_max_by_split l [] [] x) as (pre & post & Heq & H1 & H2).
  - intros y Hy. apply elem_of_nil in Hy. contradiction.
  - intros y Hy. apply elem_of_nil in Hy. contradiction.
  - exists pre, post. simpl in Heq. auto.
Qed.

End MaxBy.

(** ** Vote tables *)

Section Votes.
#[local] Open Scope Q_scope.

Lemma tally_cons (v : pyval) (o : pyval * Q) (ops : list (pyval * Q)) :
  tally v (o :: ops) == (if key_eqb v (fst o) then snd o else 0) + tally v ops.
Proof.
  unfold tally. simpl. rewrite (key_eqb_sym (fst o) v).
  destruct (key_eqb v (fst o)); simpl.
  - apply Qsum_cons.
  - lra.
Qed.

Lemma tally_nil (v : pyval) : tally v [] = 0.
Proof. reflexivity. Qed.

Lemma tally_from_spec (s : Q) (v : pyval) (ops : list (pyval * Q)) :
  tally_from s v ops == s + tally v ops.
Proof.
  unfold tally_from. revert s.
  induction ops as [|o ops IH]; intros s; simpl.
  - rewrite tally_nil. lra.
  - rewrite IH, tally_cons. destruct (key_eqb v (fst o)); lra.
Qed.

Lemma tally_key_eqb (v v' : pyval) (ops : list (pyval * Q)) :
  key_eqb v v' = true -> tally v ops == tally v' ops.
Proof.
  intros H. induction ops as [|o ops IH].
  - reflexivity.
  - rewrite !tally_cons, IH, (key_eqb_swap _ _ _ H). reflexivity.
Qed.

Lemma tally_others (u v : pyval) (ops : list (pyval * Q)) :
  key_eqb u v = false -> tally v (others u ops) == tally v ops.
Proof.
  intros H. induction ops as [|o ops IH]; simpl.
  - reflexivity.
  - destruct (key_eqb u (fst o)) eqn:E; simpl.
    + rewrite tally_cons, IH.
      rewrite (key_eqb_sym v), <- (key_eqb_swap _ _ _ E), H. lra.
    + rewrite !tally_cons, IH. reflexivity.
Qed.


Lemma votes_of_cons (v : pyval) (s : Q) (ops votes : list (pyval * Q)) :
  votes_of ops ((v, s) :: votes)
  = (v, tally_from s v ops) :: votes_of (others v ops) votes.
Proof.
  unfold votes_of, tally_from. revert s votes.
  induction ops as [|[u x] ops IH]; intros s votes; simpl; [reflexivity|].
  destruct (key_eqb v u); simpl; apply IH.
Qed.

(** The table of [ops]: the first value with all its votes, then the table
    of the other values. *)
Lemma votes_of_first (u : pyval) (x : Q) (ops : list (pyval * Q)) :
  votes_of ((u, x) :: ops) []
  = (u, tally_from (0 + x) u ops) :: votes_of (others u ops) [].
Proof. unfold votes_of at 1. simpl. apply votes_of_cons. Qed.

Lemma others_length (v : pyval) (ops : list (pyval * Q)) :
  (length (others v ops) <= length ops)%nat.
Proof. apply List.filter_length_le. Qed.

Lemma others_elem (v : pyval) (ops : list (pyval * Q)) (o : pyval * Q) :
  o ∈ others v ops <-> o ∈ ops /\ key_eqb v (fst o) = false.
Proof.
  unfold others. rewrite !list_elem_of_In, List.filter_In, Bool.negb_true_iff.
  reflexivity.
Qed.

Lemma filter_split {A : Type} (P : A -> bool) (l a b : list A) (x : A) :
  List.filter P l = a ++ x :: b ->
  exists l1 l2, l = l1 ++ x :: l2 /\ List.filter P l1 = a /\ List.filter P l2 = b.
Proof.
  revert a. induction l as [|y l IH]; intros a H; simpl in H.
  - destruct a; discriminate.
  - destruct (P y) eqn:E.
    + destruct a as [|z a]; simpl in H.
      * injection H as -> Hb. exists [], l. auto.
      * injection H as -> Ha.
        destruct (IH a Ha) as (l1 & l2 & -> & H1 & H2).
        exists (z :: l1), l2. simpl. rewrite E, H1. auto.
    + destruct (IH a H) as (l1 & l2 & -> & H1 & H2).
      exists (y :: l1), l2. simpl. rewrite E. auto.
Qed.

(** An entry's key is the value of an opinion, and every opinion before
    the first one with that value has an earlier entry. *)
Lemma votes_of_order (ops : list (pyval * Q)) :
  Forall (fun o => hashable (fst o) = true) ops ->
  forall T1 k s T2,
    votes_of ops [] = T1 ++ (k, s) :: T2 ->
    exists pre w post,
      ops = pre ++ (k, w) :: post /\
      forall o, o ∈ pre -> exists e, e ∈ T1 /\ key_eqb (fst e) (fst o) = true.
Proof.
  remember (length ops) as n eqn:Hn. revert ops Hn.
  induction n as [n IH] using lt_wf_ind. intros ops Hn Hh T1 k s T2 HT.
  destruct ops as [|[u x] ops].
  - destruct T1; discriminate.
  - rewrite votes_of_first in HT.
    apply Forall_cons in Hh as [Hu Hh]. simpl in Hu.
    destruct T1 as [|e T1]; simpl in HT.
    + injection HT as -> _ _. exists [], x, ops. split; [reflexivity|].
      intros o Ho. apply elem_of_nil in Ho. contradiction.
    + injection HT as <- HT.
      assert (Hlen : (length (others u ops) < n)%nat).
      { pose proof (others_length u ops). simpl in Hn. lia. }
      assert (Hho : Forall (fun o => hashable (fst o) = true) (others u ops)).
      { apply Forall_forall. intros o Ho. apply others_elem in Ho as [Ho _].
        rewrite Forall_forall in Hh. auto. }
      destruct (IH _ Hlen (others u ops) eq_refl Hho _ _ _ _ HT)
        as (pre & w & post & Heq & Hpre).
      destruct (filter_split _ _ _ _ _ Heq) as (l1 & l2 & -> & H1 & H2).
      exists ((u, x) :: l1), w, l2. split; [reflexivity|].
      intros o Ho. apply elem_of_cons in Ho as [->|Ho].
      * exists (u, tally_from (0 + x) u (l1 ++ (k, w) :: l2)). split.
        -- apply elem_of_cons. left. reflexivity.
        -- simpl. apply key_eqb_refl, Hu.
      * destruct (key_eqb u (fst o)) eqn:E.
        -- exists (u, tally_from (0 + x) u (l1 ++ (k, w) :: l2)). split.
           ++ apply elem_of_cons. left. reflexivity.
           ++ exact E.
        -- destruct (Hpre o) as (e & He & Hk).
           ++ rewrite <- H1. apply others_elem. auto.
           ++ exists e. split; [|exact Hk]. apply elem_of_cons. right. exact He.
Qed.

Lemma votes_of_key (ops : list (pyval * Q)) (k : pyval) (s : Q) :
  Forall (fun o => hashable (fst o) = true) ops ->
  (k, s) ∈ votes_of ops [] -> exists w, (k, w) ∈ ops.
Proof.
  intros Hh Hk. apply list_elem_of_split in Hk as (T1 & T2 & HT).
  destruct (votes_of_order ops Hh _ _ _ _ HT) as (pre & w & post & -> & _).
  exists w. apply elem_of_app. right. apply elem_of_cons. left. reflexivity.
Qed.

(** An entry holds the summed weight of its value. *)
Lemma votes_of_tally (ops : list (pyval * Q)) :
  Forall (fun o => hashable (fst o) = true) ops ->
  forall k s, (k, s) ∈ votes_of ops [] -> s == tally k ops.
Proof.
  remember (length ops) as n eqn:Hn. revert ops Hn.
  induction n as [n IH] using lt_wf_ind. intros ops Hn Hh k s Hk.
  destruct ops as [|[u x] ops].
  - apply elem_of_nil in Hk. contradiction.
  - rewrite votes_of_first in Hk.
    pose proof Hh as Hh'. apply Forall_cons in Hh' as [Hu Hh']. simpl in Hu.
    assert (Hho : Forall (fun o => hashable (fst o) = true) (others u ops)).
    { apply Forall_forall. intros o Ho. apply others_elem in Ho as [Ho _].
      rewrite Forall_forall in Hh'. auto. }
    apply elem_of_cons in Hk as [[= -> ->]|Hk].
    + rewrite tally_from_spec, tally_cons. simpl.
      rewrite (key_eqb_refl _ Hu). lra.
    + assert (Hlen : (length (others u ops) < n)%nat).
      { pose proof (others_length u ops). simpl in Hn. lia. }
      rewrite (IH _ Hlen (others u ops) eq_refl Hho k s Hk).
      destruct (votes_of_key _ _ _ Hho Hk) as (w & Hw).
      apply others_elem in Hw as [_ Hw]. simpl in Hw.
      rewrite tally_cons. simpl. rewrite (key_eqb_sym k u), Hw.
      rewrite (tally_others _ _ _ Hw). lra.
Qed.

(** Every opinion's value has an entry. *)
Lemma votes_of_cover (ops : list (pyval * Q)) :
  Forall (fun o => hashable (fst o) = true) ops ->
  forall o, o ∈ ops ->
    exists e, e ∈ votes_of ops [] /\ key_eqb (fst e) (fst o) = true.
Proof.
  remember (length ops) as n eqn:Hn. revert ops Hn.
  induction n as [n IH] using lt_wf_ind. intros ops Hn Hh o Ho.
  destruct ops as [|[u x] ops].
  - apply elem_of_nil in Ho. contradiction.
  - rewrite votes_of_first.
    pose proof Hh as Hh'. apply Forall_cons in Hh' as [Hu Hh']. simpl in Hu.
    destruct (key_eqb u (fst o)) eqn:E.
    + eexists. split; [apply elem_of_cons; left; reflexivity|exact E].
    + apply elem_of_cons in Ho as [->|Ho].
      { simpl in E. rewrite (key_eqb_refl _ Hu) in E. discriminate. }
      assert (Hlen : (length (others u ops) < n)%nat).
      { pose proof (others_length u ops). simpl in Hn. lia. }
      assert (Hho : Forall (fun o => hashable (fst o) = true) (others u ops)).
      { apply Forall_forall. intros o' Ho'. apply others_elem in Ho' as [Ho' _].
        rewrite Forall_forall in Hh'. auto. }
      assert (Hin : o ∈ others u ops) by (apply others_elem; auto).
      destruct (IH _ Hlen (others u ops) eq_refl Hho o Hin) as (e & He & Hk).
      exists e. split; [apply elem_of_cons; right; exact He|exact Hk].
Qed.

(** The winner of the table is the weighted plurality of the opinions. *)
Lemma vote_winner_plurality (ops : list (pyval * Q)) (dflt : pyval) :
  Forall (fun o => hashable (fst o) = true) ops ->
  ops <> [] ->
  plurality_winner ops (vote_winner (votes_of ops []) dflt).
Proof.
  intros Hh Hne.
  destruct (votes_of ops []) as [|e T] eqn:HT.
  { destruct ops as [|[u x] ops]; [congruence|].
    rewrite votes_of_first in HT. discriminate. }
  simpl. destruct (py_max_by_first snd e T) as (T1 & T2 & Heq & H1 & H2).
  destruct (py_max_by snd e T) as [win s] eqn:Hwin. simpl in *.
  rewrite <- HT in Heq.
  destruct (votes_of_order ops Hh _ _ _ _ Heq) as (pre & w & post & Hops & Hpre).
  assert (Hs : s == tally win ops).
  { apply votes_of_tally; [exact Hh|]. rewrite Heq.
    apply elem_of_app. right. apply elem_of_cons. left. reflexivity. }
  exists pre, w, post. split; [exact Hops|]. split.
  - intros o Ho. destruct (Hpre o Ho) as ([k' s'] & He & Hk). simpl in Hk.
    assert (Hs' : s' == tally (fst o) ops).
    { rewrite <- (tally_key_eqb _ _ _ Hk). apply votes_of_tally; [exact Hh|].
      rewrite Heq. apply elem_of_app. left. exact He. }
    specialize (H1 _ He). simpl in H1.
    assert (Hlt : tally (fst o) ops < tally win ops) by (rewrite <- Hs, <- Hs'; exact H1).
    split; [|exact Hlt].
    destruct (key_eqb (fst o) win) eqn:E; [|reflexivity].
    rewrite (tally_key_eqb _ _ _ E) in Hlt. lra.
  - intros o Ho.
    destruct (votes_of_cover ops Hh o) as ([k' s'] & He & Hk).
    { rewrite Hops. apply elem_of_app. right. apply elem_of_cons. right. exact Ho. }
    simpl in Hk.
    assert (Hs' : s' == tally (fst o) ops).
    { rewrite <- (tally_key_eqb _ _ _ Hk). apply votes_of_tally; assumption. }
    rewrite <- Hs, <- Hs'.
    rewrite Heq in He. apply elem_of_app in He as [He|He].
    + specialize (H1 _ He). simpl in H1. lra.
    + apply elem_of_cons in He as [[= -> ->]|He]; [lra|].
      specialize (H2 _ He). exact H2.
Qed.

End Votes.

(** ** The loop of [build_company_consensus] *)

Lemma is_configured_true (cfg : config) (name : string) :
  is_configured cfg name = true <-> configured cfg name.
Proof.
  unfold is_configured, configured.
  destruct (cfg_lookup cfg name) as [c|e]; split; intros H; eauto.
  - discriminate.
  - destruct H as [c H]. discriminate.
Qed.

Lemma vote_if_votable (v : pyval) (w : Q) (votes : list (pyval * Q)) :
  votable v = true ->
  vote_if v w votes
  = Ok (votes_of (if truthy v then [(v, w)] else []) votes).
Proof.
  unfold votable, vote_if. destruct (truthy v); simpl; [|reflexivity].
  intros ->. reflexivity.
Qed.

Lemma set_update_items (items : list pyval) (s : list pyval) :
  forallb hashable items = true ->
  foldM (fun s x => if hashable x then Ok (set_add x s)
                    else Raise (TypeError "unhashable type")) s items
  = Ok (set_of items s).
Proof.
  revert s. induction items as [|x items IH]; intros s H; simpl in *.
  - reflexivity.
  - apply andb_true_iff in H as [-> H]. simpl. apply IH, H.
Qed.

Lemma set_update_if_collectable (v : pyval) (s : list pyval) :
  collectable v = true -> set_update_if s v = Ok (set_of (items_of v) s).
Proof.
  unfold collectable, set_update_if, items_of, set_update.
  destruct (truthy v); simpl; [|reflexivity].
  destruct (py_iter v) as [items|e]; simpl; [|discriminate].
  apply set_update_items.
Qed.

Lemma set_of_app (l k s : list pyval) : set_of (l ++ k) s = set_of k (set_of l s).
Proof. unfold set_of. apply foldl_app. Qed.

Lemma company_loop (cfg : config) (rs : results) (a : Company.acc) :
  company_ok cfg rs = true ->
  foldM (Company.step cfg) a rs
  = Ok {| Company.industry_votes :=
            votes_of (scalar_opinions company_industry cfg rs) (Company.industry_votes a);
          Company.size_votes :=
            votes_of (scalar_opinions company_size cfg rs) (Company.size_votes a);
          Company.pain_points :=
            set_of (collected company_points rs) (Company.pain_points a);
          Company.opportunities :=
            set_of (collected company_opps rs) (Company.opportunities a);
          Company.decision_makers :=
            set_of (collected company_titles rs) (Company.decision_makers a);
          Company.websites :=
            Company.websites a ++ truthy_values company_website rs;
          Company.linkedin_pages :=
            Company.linkedin_pages a ++ truthy_values company_linkedin rs;
          Company.confidence_scores :=
            Company.confidence_scores a ++ weighted_scores company_conf cfg rs |}.
Proof.
  revert a. induction rs as [|[name result] rs IH]; intros a H.
  - destruct a. simpl. rewrite !app_nil_r. reflexivity.
  - simpl in H. apply andb_true_iff in H as [H Hrs].
    repeat (apply andb_true_iff in H as [H ?]).
    apply is_configured_true in H.
    simpl. rewrite (cfg_weight_configured _ _ H). simpl.
    rewrite !vote_if_votable, !set_update_if_collectable by assumption. simpl.
    rewrite (IH _ Hrs). simpl. f_equal.
    unfold scalar_opinions, collected, truthy_values, weighted_scores, Company.append_if.
    simpl.
    f_equal.
    + destruct (truthy (company_industry result)); reflexivity.
    + destruct (truthy (company_size result)); reflexivity.
    + rewrite set_of_app. reflexivity.
    + rewrite set_of_app. reflexivity.
    + rewrite set_of_app. reflexivity.
    + destruct (truthy (company_website result)); simpl;
        rewrite <- ?app_assoc; reflexivity.
    + destruct (truthy (company_linkedin result)); simpl;
        rewrite <- ?app_assoc; reflexivity.
    + destruct (numeric (company_conf result)); simpl;
        rewrite <- ?app_assoc; reflexivity.
Qed.

(** ** The loops of [build_contact_consensus] *)

Section ContactLoop.

Lemma collect_other (mapping : list (string * list string)) (result : pydict)
    (w : Q) (fr : gmap string (list (pyval * Q))) (field : string) :
  field ∉ mapping.*1 ->
  foldl (fun fr '(field, possible_keys) =>
           match first_truthy possible_keys result with
           | Some v => alter (fun l => l ++ [(v, w)]) field fr
           | None => fr
           end) fr mapping !! field
  = fr !! field.
Proof.
  revert fr. induction mapping as [|[f ks] mapping IH]; intros fr Hnot; simpl.
  - reflexivity.
  - simpl in Hnot. apply not_elem_of_cons in Hnot as [Hne Hnot].
    rewrite (IH _ Hnot). destruct (first_truthy ks result); [|reflexivity].
    apply lookup_alter_ne. congruence.
Qed.

Lemma collect_field (mapping : list (string * list string)) (result : pydict)
    (w : Q) (fr : gmap string (list (pyval * Q))) (field : string)
    (aliases : list string) :
  NoDup mapping.*1 ->
  (field, aliases) ∈ mapping ->
  foldl (fun fr '(field, possible_keys) =>
           match first_truthy possible_keys result with
           | Some v => alter (fun l => l ++ [(v, w)]) field fr
           | None => fr
           end) fr mapping !! field
  = (fun l => l ++ responses_of aliases result w) <$> fr !! field.
Proof.
  revert fr. induction mapping as [|[f ks] mapping IH]; intros fr Hnd Hin; simpl.
  - apply elem_of_nil in Hin. contradiction.
  - simpl in Hnd. apply NoDup_cons in Hnd as [Hf Hnd].
    apply elem_of_cons in Hin as [[= <- <-]|Hin].
    + rewrite (collect_other _ _ _ _ _ Hf). unfold responses_of.
      destruct (first_truthy aliases result).
      * apply lookup_alter_eq.
      * destruct (fr !! field); simpl; [rewrite app_nil_r|]; reflexivity.
    + rewrite (IH _ Hnd Hin).
      assert (f <> field).
      { intros ->. apply Hf. apply list_elem_of_fmap. exists (field, aliases). auto. }
      destruct (first_truthy ks result); [|reflexivity].
      rewrite lookup_alter_ne by assumption. reflexivity.
Qed.

Lemma field_mapping_NoDup : NoDup field_mapping.*1.
Proof. apply (bool_decide_unpack _). vm_compute. exact I. Qed.

Lemma contact_fields_NoDup : NoDup contact_fields.
Proof. apply (bool_decide_unpack _). vm_compute. exact I. Qed.

Lemma field_mapping_fields : field_mapping.*1 = contact_fields.
Proof. reflexivity. Qed.

Lemma contact_collect_field (result : pydict) (w : Q)
    (fr : gmap string (list (pyval * Q))) (field : string) (aliases : list string) :
  (field, aliases) ∈ field_mapping ->
  Contact.collect result w fr !! field
  = (fun l => l ++ responses_of aliases result w) <$> fr !! field.
Proof. apply collect_field, field_mapping_NoDup. Qed.

Lemma collect_all_field (cfg : config) (rs : results)
    (fr : gmap string (list (pyval * Q))) (field : string) (aliases : list string) :
  (field, aliases) ∈ field_mapping ->
  collect_all cfg rs fr !! field
  = (fun l => l ++ contact_opinions aliases cfg rs) <$> fr !! field.
Proof.
  intros Hin. unfold collect_all, contact_opinions.
  revert fr. induction rs as [|[name result] rs IH]; intros fr; simpl.
  - destruct (fr !! field); simpl; [rewrite app_nil_r|]; reflexivity.
  - rewrite IH, (contact_collect_field _ _ _ _ _ Hin). unfold responses_of.
    destruct (fr !! field) as [l|]; simpl; [|reflexivity].
    destruct (first_truthy aliases result); simpl;
      rewrite <- ?app_assoc, ?app_nil_r; reflexivity.
Qed.

Lemma acc0_field (field : string) :
  field ∈ contact_fields -> Contact.field_responses Contact.acc0 !! field = Some [].
Proof.
  intros H. unfold contact_fields in H.
  repeat (apply elem_of_cons in H as [->|H]; [reflexivity|]).
  apply elem_of_nil in H. contradiction.
Qed.

Lemma contact_loop (cfg : config) (rs : results) (a : Contact.acc) :
  Forall (fun r => configured cfg (fst r)) rs ->
  foldM (Contact.step cfg) a rs
  = Ok {| Contact.field_responses := collect_all cfg rs (Contact.field_responses a);
          Contact.confidence_scores :=
            Contact.confidence_scores a ++ weighted_scores contact_conf cfg rs |}.
Proof.
  intros H. revert a. induction H as [|[name result] rs Hc _ IH]; intros a.
  - destruct a. simpl. rewrite app_nil_r. reflexivity.
  - simpl in Hc. simpl. rewrite (cfg_weight_configured _ _ Hc). simpl.
    rewrite IH. simpl. unfold weighted_scores. simpl.
    destruct (numeric (contact_conf result)); simpl;
      rewrite <- ?app_assoc; reflexivity.
Qed.

Lemma pick_other (fields : list string) (fr : gmap string (list (pyval * Q)))
    (c : pydict) (field : string) :
  field ∉ fields ->
  foldl (fun c field =>
           match fr !! field with
           | Some (r :: rs) => <[field := fst (py_max_by snd r rs)]> c
           | _ => c
           end) c fields !! field
  = c !! field.
Proof.
  revert c. induction fields as [|f fields IH]; intros c Hnot; simpl.
  - reflexivity.
  - apply not_elem_of_cons in Hnot as [Hne Hnot]. rewrite (IH _ Hnot).
    destruct (fr !! f) as [[|r rs]|]; try reflexivity.
    apply lookup_insert_ne. congruence.
Qed.

Lemma pick_field (fields : list string) (fr : gmap string (list (pyval * Q)))
    (c : pydict) (field : string) (dflt : pyval) :
  NoDup fields -> field ∈ fields -> c !! field = Some dflt ->
  foldl (fun c field =>
           match fr !! field with
           | Some (r :: rs) => <[field := fst (py_max_by snd r rs)]> c
           | _ => c
           end) c fields !! field
  = Some (heaviest (default [] (fr !! field)) dflt).
Proof.
  revert c. induction fields as [|f fields IH]; intros c Hnd Hin Hc; simpl.
  - apply elem_of_nil in Hin. contradiction.
  - apply NoDup_cons in Hnd as [Hf Hnd].
    apply elem_of_cons in Hin as [->|Hin].
    + rewrite (pick_other _ _ _ _ Hf).
      destruct (fr !! f) as [[|r rs]|]; simpl; try exact Hc.
      apply lookup_insert_eq.
    + apply IH; [exact Hnd|exact Hin|].
      assert (f <> field) by (intros ->; contradiction).
      destruct (fr !! f) as [[|r rs]|]; try exact Hc.
      rewrite lookup_insert_ne by assumption. exact Hc.
Qed.

Lemma contact_pick_field (fr : gmap string (list (pyval * Q))) (field : string) :
  field ∈ contact_fields ->
  Contact.pick fr contact_defaults !! field
  = Some (heaviest (default [] (fr !! field)) PNone).
Proof.
  intros H. apply pick_field; [apply contact_fields_NoDup|exact H|].
  unfold contact_fields in H.
  repeat (apply elem_of_cons in H as [->|H]; [reflexivity|]).
  apply elem_of_nil in H. contradiction.
Qed.

Lemma contact_pick_other (fr : gmap string (list (pyval * Q))) (c : pydict)
    (key : string) :
  key ∉ contact_fields -> Contact.pick fr c !! key = c !! key.
Proof. apply pick_other. Qed.

Lemma heaviest_first_spec (r : pyval * Q) (rs : list (pyval * Q)) (dflt : pyval) :
  heaviest_first (r :: rs) (heaviest (r :: rs) dflt).
Proof.
  simpl. destruct (py_max_by_first snd r rs) as (pre & post & Heq & H1 & H2).
  destruct (py_max_by snd r rs) as [win w]. simpl in *.
  exists pre, w, post. auto.
Qed.

End ContactLoop.

(** ** [build_contact_consensus] returns *)

Lemma positive_weights_spec (cfg : config) (rs : results) :
  positive_weights cfg rs = true ->
  Forall (fun r => configured cfg (fst r) /\ (0 < weight_of cfg (fst r))%Q) rs.
Proof.
  unfold positive_weights. rewrite forallb_forall, Forall_forall.
  intros H r Hr. apply list_elem_of_In, H in Hr.
  apply andb_true_iff in Hr as [H1 H2].
  split; [apply is_configured_true, H1|apply Qgtb_true, H2].
Qed.

Lemma positive_weights_configured (cfg : config) (rs : results) :
  positive_weights cfg rs = true -> Forall (fun r => configured cfg (fst r)) rs.
Proof.
  intros H. eapply Forall_impl; [apply positive_weights_spec, H|].
  simpl. intros r [Hr _]. exact Hr.
Qed.

Lemma positive_weights_sum (cfg : config) (rs : results) :
  positive_weights cfg rs = true -> rs <> [] -> (0 < Qsum (weights cfg rs))%Q.
Proof.
  intros H Hne. apply Qsum_pos.
  - unfold weights. destruct rs; [congruence|discriminate].
  - unfold weights. apply Forall_map.
    eapply Forall_impl; [apply positive_weights_spec, H|].
    simpl. intros r [_ Hr]. exact Hr.
Qed.

Lemma nonempty_true {A : Type} (l : list A) :
  match l with [] => false | _ :: _ => true end = true -> l <> [].
Proof. destruct l; [discriminate|congruence]. Qed.

Lemma contact_ok_spec (cfg : config) (models : list string) (rs : results) :
  contact_ok cfg models rs = true ->
  positive_weights cfg rs = true /\ rs <> [] /\ models <> [].
Proof.
  unfold contact_ok. rewrite !andb_true_iff. intros [[H1 H2] H3].
  auto using nonempty_true.
Qed.

Lemma build_contact_consensus_spec (cfg : config) (models : list string) (rs : results) :
  contact_ok cfg models rs = true ->
  exists c,
    build_contact_consensus cfg models rs = Ok c /\
    (forall field aliases, (field, aliases) ∈ field_mapping ->
       c !! field = Some (heaviest (contact_opinions aliases cfg rs) PNone)) /\
    c !! "confidence_score" = Some (PNum (contact_confidence cfg rs)) /\
    c !! "consensus_strength" = Some (PNum (Qlen rs / Qlen models)).
Proof.
  intros Hok. apply contact_ok_spec in Hok as (Hw & Hrs & Hm).
  pose proof (positive_weights_configured _ _ Hw) as Hc.
  pose proof (positive_weights_sum _ _ Hw Hrs) as Hsum.
  pose proof (Qlen_pos models Hm) as Hlen.
  unfold build_contact_consensus.
  rewrite (contact_loop _ _ _ Hc).
  cbn [mbind py_bind Contact.field_responses Contact.confidence_scores].
  change (Contact.confidence_scores Contact.acc0) with (@nil Q).
  cbn [app].
  set (c1 := Contact.pick _ _).
  set (ws := weighted_scores contact_conf cfg rs).
  assert (Hfield : forall field aliases, (field, aliases) ∈ field_mapping ->
            c1 !! field = Some (heaviest (contact_opinions aliases cfg rs) PNone)).
  { intros field aliases Hin.
    assert (Hf : field ∈ contact_fields).
    { rewrite <- field_mapping_fields. apply list_elem_of_fmap.
      exists (field, aliases). auto. }
    unfold c1. rewrite (contact_pick_field _ _ Hf).
    rewrite (collect_all_field _ _ _ _ _ Hin), (acc0_field _ Hf). reflexivity. }
  assert (Hne : forall field aliases, (field, aliases) ∈ field_mapping ->
            field <> "confidence_score" /\ field <> "consensus_strength").
  { intros field aliases Hin. unfold field_mapping in Hin.
    repeat (apply elem_of_cons in Hin as [[= -> _]|Hin]; [split; discriminate|]).
    apply elem_of_nil in Hin. contradiction. }
  assert (Hc1 : c1 !! "confidence_score" = Some (PNum 0)).
  { unfold c1. rewrite contact_pick_other; [reflexivity|].
    apply (bool_decide_unpack _). vm_compute. exact I. }
  rewrite (py_div_ok (Qlen rs) (Qlen models)) by lra.
  unfold contact_confidence. fold ws.
  destruct ws as [|x ws'] eqn:Hws; simpl.
  - eexists. split; [reflexivity|]. split; [|split].
    + intros field aliases Hin. destruct (Hne _ _ Hin) as [_ H2].
      rewrite lookup_insert_ne by congruence. apply (Hfield _ _ Hin).
    + rewrite lookup_insert_ne by discriminate. exact Hc1.
    + apply lookup_insert_eq.
  - rewrite (sum_weights_configured _ _ Hc). simpl.
    rewrite py_div_ok by lra. simpl.
    eexists. split; [reflexivity|]. split; [|split].
    + intros field aliases Hin. destruct (Hne _ _ Hin) as [H1 H2].
      rewrite !lookup_insert_ne by congruence. apply (Hfield _ _ Hin).
    + rewrite lookup_insert_ne by discriminate. apply lookup_insert_eq.
    + apply lookup_insert_eq.
Qed.

(** ** [build_company_consensus] returns *)

Lemma weighted_scores_length (get : pydict -> pyval) (cfg : config) (rs : results) :
  (length (weighted_scores get cfg rs) <= length rs)%nat.
Proof.
  unfold weighted_scores, omap. induction rs as [|r rs IH]; simpl; [lia|].
  destruct (numeric (get (snd r))); cbn; lia.
Qed.

Lemma build_company_consensus_spec (set_order : list pyval -> list pyval)
    (cfg : config) (rs : results) :
  company_ok cfg rs = true ->
  build_company_consensus set_order cfg rs
  = Ok (list_to_map
          [ ("industry_type",
             vote_winner (votes_of (scalar_opinions company_industry cfg rs) []) (PStr "Other"));
            ("company_size",
             vote_winner (votes_of (scalar_opinions company_size cfg rs) []) (PStr "Unknown"));
            ("pain_points",
             PList (take 5 (set_order (set_of (collected company_points rs) []))));
            ("yardi_opportunities",
             PList (take 3 (set_order (set_of (collected company_opps rs) []))));
            ("target_decision_makers",
             PList (take 5 (set_order (set_of (collected company_titles rs) []))));
            ("website_url", default PNone (head (truthy_values company_website rs)));
            ("linkedin_company_url",
             default PNone (head (truthy_values company_linkedin rs)));
            ("confidence_score", PNum (company_confidence cfg rs)) ]).
Proof.
  intros Hok. unfold build_company_consensus.
  rewrite (company_loop _ _ _ Hok).
  cbn [mbind py_bind Company.industry_votes Company.size_votes Company.pain_points
       Company.opportunities Company.decision_makers Company.websites
       Company.linkedin_pages Company.confidence_scores Company.acc0 app].
  unfold company_confidence.
  pose proof (weighted_scores_length company_conf cfg rs) as Hlen.
  destruct (weighted_scores company_conf cfg rs) as [|x ws] eqn:Hws.
  - reflexivity.
  - rewrite py_div_ok.
    + reflexivity.
    + assert (rs <> []) by (intros ->; simpl in Hlen; lia).
      apply Qpos_neq0, Qlen_pos, H.
Qed.

(** ** [build_email_consensus] returns *)




(** ** Email verification *)

Section EmailFacts.
#[local] Open Scope Q_scope.



End EmailFacts.





(** The half is taken of the weights present (0.3 + 0.2), not of the
    configured total (1.0): 0.3 carries the vote. *)
Example email_valid_present_weights :
  (c ← build_email_consensus id Examples.cfg352 Examples.email2;
   mret (c !! "is_valid_format")) = Ok (Some (PBool true)).
Proof. vm_compute. reflexivity. Qed.

(** ** Alias resolution *)

Lemma first_truthy_match (pre post : list string) (key : string) (result : pydict)
    (v : pyval) :
  result !! key = Some v -> truthy v = true ->
  (forall k, k ∈ pre -> truthy (dict_get result k PNone) = false) ->
  first_truthy (pre ++ key :: post) result = Some v.
Proof.
  intros Hk Hv. induction pre as [|k pre IH]; intros Hpre; simpl.
  - rewrite Hk, Hv. reflexivity.
  - assert (Hf : truthy (dict_get result k PNone) = false).
    { apply Hpre, elem_of_cons. left. reflexivity. }
    unfold dict_get in Hf. destruct (result !! k) as [x|]; simpl in Hf.
    + rewrite Hf. apply IH. intros k' Hk'. apply Hpre, elem_of_cons. right. exact Hk'.
    + apply IH. intros k' Hk'. apply Hpre, elem_of_cons. right. exact Hk'.
Qed.

Lemma first_truthy_none (keys : list string) (result : pydict) :
  (forall k, k ∈ keys -> truthy (dict_get result k PNone) = false) ->
  first_truthy keys result = None.
Proof.
  induction keys as [|k keys IH]; intros H; simpl; [reflexivity|].
  assert (Hf : truthy (dict_get result k PNone) = false).
  { apply H, elem_of_cons. left. reflexivity. }
  unfold dict_get in Hf. destruct (result !! k) as [x|]; simpl in Hf.
  - rewrite Hf. apply IH. intros k' Hk'. apply H, elem_of_cons. right. exact Hk'.
  - apply IH. intros k' Hk'. apply H, elem_of_cons. right. exact Hk'.
Qed.

Lemma heaviest_single (aliases : list string) (cfg : config) (name : string)
    (result : pydict) :
  heaviest (contact_opinions aliases cfg [(name, result)]) PNone
  = default PNone (first_truthy aliases result).
Proof.
  unfold contact_opinions. simpl.
  destruct (first_truthy aliases result); reflexivity.
Qed.

(** C8: in the consensus of one payload, every canonical field holds the value
    under the first of its aliases that is present with a true value ([None]
    when there is none); the aliases after the match play no part; the
    aliases of [job_title] are [job_title], [probable_title], [title]. *)
Theorem alias_resolution_first_match (cfg : config) (models : list string)
    (name : string) (result : pydict) (field : string) (aliases : list string) :
  contact_ok cfg models [(name, result)] = true ->
  (field, aliases) ∈ field_mapping ->
  exists c,
    build_contact_consensus cfg models [(name, result)] = Ok c /\
    c !! field = Some (default PNone (first_truthy aliases result)) /\
    (forall pre key post v,
        aliases = pre ++ key :: post ->
        result !! key = Some v -> truthy v = true ->
        (forall k, k ∈ pre -> truthy (dict_get result k PNone) = false) ->
        c !! field = Some v) /\
    ((forall k, k ∈ aliases -> truthy (dict_get result k PNone) = false) ->
     c !! field = Some PNone) /\
    (field = "job_title" -> aliases = ["job_title"; "probable_title"; "title"]).
Proof.
  intros Hok Hin.
  destruct (build_contact_consensus_spec _ _ _ Hok) as (c & Hc & Hfield & _).
  exists c. split; [exact Hc|].
  assert (Hf : c !! field = Some (default PNone (first_truthy aliases result))).
  { rewrite (Hfield _ _ Hin), heaviest_single. reflexivity. }
  split; [exact Hf|]. split; [|split].
  - intros pre key post v -> Hk Hv Hpre.
    rewrite Hf, (first_truthy_match _ _ _ _ _ Hk Hv Hpre). reflexivity.
  - intros Hnone. rewrite Hf, (first_truthy_none _ _ Hnone). reflexivity.
  - intros ->. unfold field_mapping in Hin.
    apply elem_of_cons in Hin as [[= <-]|Hin]; [reflexivity|].
    repeat (apply elem_of_cons in Hin as [[=]|Hin]).
    apply elem_of_nil in Hin. contradiction.
Qed.

(** The payload [{"probable_title": "VP Sales", "title": "Director"}] resolves
    [job_title] to ["VP Sales"]. *)
Lemma alias_resolution_first_match_witness :
  exists c,
    build_contact_consensus Examples.cfg1 ["deepseek"]
      [("deepseek", Examples.vp_sales)] = Ok c /\
    c !! "job_title" = Some (PStr "VP Sales").
Proof.
  destruct (alias_resolution_first_match Examples.cfg1 ["deepseek"] "deepseek"
              Examples.vp_sales "job_title" ["job_title"; "probable_title"; "title"])
    as (c & Hc & Hf & _).
  - reflexivity.
  - apply elem_of_cons. left. reflexivity.
  - exists c. split; [exact Hc|exact Hf].
Defined.

(** ** Confidence scores *)

(** C2, at a failing input: one company opinion of confidence 80 from a source
    weighted 0.3 gets the score 80 * 0.3 / 1 = 24, the weighted sum divided by
    the number of results; the weighted mean of the claim is 80. *)
Theorem company_confidence_divides_by_count :
  exists q,
    (c ← build_company_consensus id Examples.cfg352 Examples.company_conf80;
     mret (c !! "confidence_score")) = Ok (Some (PNum q)) /\
    (q == 24)%Q /\
    (q == Qsum (weighted_scores company_conf Examples.cfg352 Examples.company_conf80)
          / Qlen Examples.company_conf80)%Q /\
    ~ (q == 80)%Q.
Proof.
  eexists. split; [vm_compute; reflexivity|].
  split; [reflexivity|]. split; [reflexivity|]. discriminate.
Qed.

(** In general the company score is the sum of [conf * weight] over the number
    of results. *)
Lemma company_confidence_spec (set_order : list pyval -> list pyval)
    (cfg : config) (rs : results) :
  company_ok cfg rs = true ->
  exists c,
    build_company_consensus set_order cfg rs = Ok c /\
    c !! "confidence_score" = Some (PNum (company_confidence cfg rs)).
Proof.
  intros Hok. rewrite (build_company_consensus_spec _ _ _ Hok).
  eexists. split; reflexivity.
Qed.

(** The contact score divides by the weights of all the results, also of those
    whose confidence is not a number: 80 * 0.3 / (0.3 + 0.5) = 30. *)
Example contact_confidence_counts_all_weights :
  exists q,
    (c ← build_contact_consensus Examples.cfg352 Examples.names3
           Examples.contact_conf_words;
     mret (c !! "confidence_score")) = Ok (Some (PNum q)) /\
    (q == 30)%Q.
Proof. eexists. split; [vm_compute; reflexivity|reflexivity]. Qed.

(** ** Registered models and consensus strength *)

Lemma setup_models_from (cfg : config) (acc : list string) (name : string) :
  name ∈ foldl (fun models '(name, c) =>
                  if negb (enabled c) then models
                  else if String.eqb (api_key c) (placeholder_key name) then models
                  else if known_provider name then
                         if bool_decide (name ∈ models) then models else models ++ [name]
                       else models) acc cfg
  <-> name ∈ acc \/ exists c, (name, c) ∈ cfg /\ registers name c = true.
Proof.
  revert acc. induction cfg as [|[n c] cfg IH]; intros acc; simpl.
  - split; [auto|]. intros [H|(c & H & _)]; [exact H|].
    apply elem_of_nil in H. contradiction.
  - rewrite IH. clear IH.
    assert (Hreg : forall acc' : list string, (name ∈ acc' <-> name ∈ acc \/ (n = name /\ registers n c = true)) ->
              (name ∈ acc' \/ (exists c0, (name, c0) ∈ cfg /\ registers name c0 = true))
              <-> (name ∈ acc \/ exists c0, (name, c0) ∈ (n, c) :: cfg /\ registers name c0 = true)).
    { intros acc' Hacc. rewrite Hacc. split.
      - intros [[H|[-> H]]|(c0 & H1 & H2)]; [auto| |].
        + right. exists c. split; [apply elem_of_cons; auto|exact H].
        + right. exists c0. split; [apply elem_of_cons; auto|exact H2].
      - intros [H|(c0 & H1 & H2)]; [auto|].
        apply elem_of_cons in H1 as [[= <- <-]|H1]; [auto|].
        right. exists c0. auto. }
    apply Hreg. unfold registers.
    destruct (enabled c); simpl.
    2: { split; [auto|]. intros [H|[_ H]]; [exact H|discriminate]. }
    destruct (String.eqb (api_key c) (placeholder_key n)); simpl.
    { split; [auto|]. intros [H|[_ H]]; [exact H|discriminate]. }
    destruct (known_provider n); simpl.
    2: { split; [auto|]. intros [H|[_ H]]; [exact H|discriminate]. }
    destruct (bool_decide (n ∈ acc)) eqn:E.
    + apply bool_decide_eq_true in E. split; [auto|].
      intros [H|[<- _]]; [exact H|exact E].
    + rewrite elem_of_app, list_elem_of_singleton. split.
      * intros [H | ->]; auto.
      * intros [H|[<- _]]; auto.
Qed.

(** The registered models are the configured sources that are enabled, carry
    another key than the placeholder and name one of the four providers. *)
Lemma setup_models_spec (cfg : config) (name : string) :
  name ∈ setup_models cfg <-> exists c, (name, c) ∈ cfg /\ registers name c = true.
Proof.
  unfold setup_models. rewrite setup_models_from. split.
  - intros [H|H]; [apply elem_of_nil in H; contradiction|exact H].
  - auto.
Qed.

Lemma setup_models_length_from (cfg : config) (acc : list string) :
  (length (foldl (fun models '(name, c) =>
                  if negb (enabled c) then models
                  else if String.eqb (api_key c) (placeholder_key name) then models
                  else if known_provider name then
                         if bool_decide (name ∈ models) then models else models ++ [name]
                       else models) acc cfg)
   <= length acc + length cfg)%nat.
Proof.
  revert acc. induction cfg as [|[n c] cfg IH]; intros acc; simpl; [lia|].
  etransitivity; [apply IH|].
  destruct (negb (enabled c)); [lia|].
  destruct (String.eqb (api_key c) (placeholder_key n)); [lia|].
  destruct (known_provider n); [|lia].
  destruct (bool_decide (n ∈ acc)); [lia|].
  rewrite length_app. simpl. lia.
Qed.

Lemma setup_models_length (cfg : config) :
  (length (setup_models cfg) <= length cfg)%nat.
Proof. apply (setup_models_length_from cfg []). Qed.

(** C3, as stated, fails: of two configured sources one is disabled; one
    opinion then has strength 1/1, not 1/2. *)
Lemma consensus_strength_not_over_configured :
  exists s,
    (c ← build_contact_consensus Examples.cfg_one_disabled
           (setup_models Examples.cfg_one_disabled) Examples.one_title;
     mret (c !! "consensus_strength")) = Ok (Some (PNum s)) /\
    (s == 1)%Q /\
    ~ (s == Qlen Examples.one_title / Qlen Examples.cfg_one_disabled)%Q.
Proof.
  eexists. split; [vm_compute; reflexivity|]. split; [reflexivity|]. discriminate.
Qed.

(** C3, amended: [consensus_strength] is the number of contributing opinions
    over the number of registered models (configured, enabled, with a real
    key and a known provider name, eligible for the task or not); with no more
    opinions than registered models it lies in [0,1]. *)
Theorem consensus_strength_over_registered (cfg : config) (rs : results) :
  contact_ok cfg (setup_models cfg) rs = true ->
  (length rs <= length (setup_models cfg))%nat ->
  exists c s,
    build_contact_consensus cfg (setup_models cfg) rs = Ok c /\
    c !! "consensus_strength" = Some (PNum s) /\
    s = (Qlen rs / Qlen (setup_models cfg))%Q /\
    (0 <= s <= 1)%Q /\
    (forall name,
        name ∈ setup_models cfg <->
        exists m, (name, m) ∈ cfg /\ registers name m = true).
Proof.
  intros Hok Hlen.
  destruct (build_contact_consensus_spec _ _ _ Hok) as (c & Hc & _ & _ & Hs).
  apply contact_ok_spec in Hok as (_ & _ & Hm).
  pose proof (Qlen_pos _ Hm) as Hpos.
  pose proof (Qlen_nonneg rs) as Hnn.
  pose proof (Qlen_le _ _ Hlen) as Hle.
  exists c, (Qlen rs / Qlen (setup_models cfg))%Q.
  split; [exact Hc|]. split; [exact Hs|]. split; [reflexivity|].
  split; [|apply setup_models_spec].
  split.
  - apply Qle_shift_div_l; [exact Hpos|]. lra.
  - apply Qle_shift_div_r; [exact Hpos|]. lra.
Qed.

Lemma consensus_strength_over_registered_witness :
  exists c s,
    build_contact_consensus Examples.cfg_one_disabled
      (setup_models Examples.cfg_one_disabled) Examples.one_title = Ok c /\
    c !! "consensus_strength" = Some (PNum s) /\
    s = (Qlen Examples.one_title / Qlen (setup_models Examples.cfg_one_disabled))%Q /\
    (0 <= s <= 1)%Q /\
    (forall name,
        name ∈ setup_models Examples.cfg_one_disabled <->
        exists m, (name, m) ∈ Examples.cfg_one_disabled /\ registers name m = true).
Proof.
  apply consensus_strength_over_registered.
  - reflexivity.
  - vm_compute. lia.
Defined.

(** ** Scalar fields *)

Lemma scalar_opinions_hashable (get : pydict -> pyval) (cfg : config) (rs : results) :
  forallb (fun r => votable (get (snd r))) rs = true ->
  Forall (fun o => hashable (fst o) = true) (scalar_opinions get cfg rs).
Proof.
  unfold scalar_opinions, omap.
  induction rs as [|r rs IH]; intros H; simpl in *; [constructor|].
  apply andb_true_iff in H as [Hr H]. unfold votable in Hr.
  destruct (truthy (get (snd r))); simpl in *; [|apply IH, H].
  constructor; [exact Hr|apply IH, H].
Qed.

Lemma company_ok_votable (cfg : config) (rs : results) :
  company_ok cfg rs = true ->
  forallb (fun r => votable (company_industry (snd r))) rs = true /\
  forallb (fun r => votable (company_size (snd r))) rs = true.
Proof.
  unfold company_ok. rewrite !forallb_forall. intros H.
  split; intros r Hr; specialize (H r Hr);
    repeat (apply andb_true_iff in H as [H ?]); assumption.
Qed.




(** ** Set-valued fields *)

Lemma distinct_keys_snoc (s : list pyval) (x : pyval) :
  distinct_keys s -> (forall y, y ∈ s -> key_eqb y x = false) ->
  distinct_keys (s ++ [x]).
Proof.
  induction s as [|z s IH]; simpl; intros Hd Hx.
  - split; [|exact I]. intros y Hy. apply elem_of_nil in Hy. contradiction.
  - destruct Hd as [Hz Hd]. split.
    + intros y Hy. apply elem_of_app in Hy as [Hy|Hy]; [auto|].
      apply list_elem_of_singleton in Hy as ->.
      apply Hx, elem_of_cons. left. reflexivity.
    + apply IH; [exact Hd|]. intros y Hy. apply Hx, elem_of_cons. right. exact Hy.
Qed.

Lemma existsb_key_false (x : pyval) (s : list pyval) :
  existsb (key_eqb x) s = false -> forall y, y ∈ s -> key_eqb y x = false.
Proof.
  intros H y Hy. rewrite key_eqb_sym.
  destruct (key_eqb x y) eqn:E; [|reflexivity].
  assert (existsb (key_eqb x) s = true); [|congruence].
  apply existsb_exists. exists y. split; [apply list_elem_of_In, Hy|exact E].
Qed.

Lemma set_add_distinct (x : pyval) (s : list pyval) :
  distinct_keys s -> distinct_keys (set_add x s).
Proof.
  intros Hd. unfold set_add. destruct (existsb (key_eqb x) s) eqn:E; [exact Hd|].
  apply distinct_keys_snoc; [exact Hd|apply existsb_key_false, E].
Qed.

Lemma set_add_elem (x y : pyval) (s : list pyval) :
  y ∈ set_add x s -> y ∈ s \/ y = x.
Proof.
  unfold set_add. destruct (existsb (key_eqb x) s); [auto|].
  rewrite elem_of_app, list_elem_of_singleton. auto.
Qed.

Lemma set_add_keeps (x y : pyval) (s : list pyval) : y ∈ s -> y ∈ set_add x s.
Proof.
  unfold set_add. destruct (existsb (key_eqb x) s); [auto|].
  rewrite elem_of_app. auto.
Qed.

Lemma set_add_has (x : pyval) (s : list pyval) :
  hashable x = true -> exists y, y ∈ set_add x s /\ key_eqb y x = true.
Proof.
  intros Hx. unfold set_add. destruct (existsb (key_eqb x) s) eqn:E.
  - apply existsb_exists in E as (y & Hy & Hk).
    exists y. split; [apply list_elem_of_In, Hy|]. rewrite key_eqb_sym. exact Hk.
  - exists x. split; [|apply key_eqb_refl, Hx].
    apply elem_of_app. right. apply list_elem_of_singleton. reflexivity.
Qed.

Lemma set_of_distinct (items s : list pyval) :
  distinct_keys s -> distinct_keys (set_of items s).
Proof.
  unfold set_of. revert s. induction items as [|x items IH]; intros s Hd; simpl.
  - exact Hd.
  - apply IH, set_add_distinct, Hd.
Qed.

Lemma set_of_elem (items s : list pyval) (y : pyval) :
  y ∈ set_of items s -> y ∈ s \/ y ∈ items.
Proof.
  unfold set_of. revert s. induction items as [|x items IH]; intros s H; simpl in H.
  - auto.
  - apply IH in H as [H|H].
    + apply set_add_elem in H as [H| ->]; [auto|].
      right. apply elem_of_cons. auto.
    + right. apply elem_of_cons. auto.
Qed.

Lemma set_of_keeps (items s : list pyval) (y : pyval) :
  y ∈ s -> y ∈ set_of items s.
Proof.
  unfold set_of. revert s. induction items as [|x items IH]; intros s H; simpl.
  - exact H.
  - apply IH, set_add_keeps, H.
Qed.

Lemma set_of_has (items s : list pyval) (x : pyval) :
  Forall (fun x => hashable x = true) items ->
  x ∈ items -> exists y, y ∈ set_of items s /\ key_eqb y x = true.
Proof.
  intros Hh. revert s. induction Hh as [|z items Hz _ IH]; intros s Hx.
  - apply elem_of_nil in Hx. contradiction.
  - apply elem_of_cons in Hx as [->|Hx].
    + destruct (set_add_has z s Hz) as (y & Hy & Hk).
      exists y. split; [|exact Hk]. apply (set_of_keeps items), Hy.
    + apply (IH (set_add z s) Hx).
Qed.

Lemma set_of_dedup_union (items : list pyval) :
  Forall (fun x => hashable x = true) items -> dedup_union items (set_of items []).
Proof.
  intros Hh. split; [|split].
  - apply set_of_distinct. exact I.
  - intros x Hx. apply set_of_elem in Hx as [Hx|Hx]; [|exact Hx].
    apply elem_of_nil in Hx. contradiction.
  - intros x Hx. apply set_of_has; assumption.
Qed.

Lemma distinct_keys_perm (l k : list pyval) :
  Permutation l k -> distinct_keys l -> distinct_keys k.
Proof.
  induction 1 as [|x l k Hp IH|x y l|l k m _ IH1 _ IH2]; simpl.
  - auto.
  - intros [Hx Hd]. split; [|auto].
    intros y Hy. apply Hx. rewrite Hp. exact Hy.
  - intros [Hy [Hx Hd]]. split; [|split].
    + intros z Hz. apply elem_of_cons in Hz as [->|Hz]; [|auto].
      rewrite key_eqb_sym. apply Hy, elem_of_cons. left. reflexivity.
    + intros z Hz. apply Hy, elem_of_cons. right. exact Hz.
    + exact Hd.
  - auto.
Qed.

Lemma dedup_union_perm (items u u' : list pyval) :
  Permutation u' u -> dedup_union items u -> dedup_union items u'.
Proof.
  intros Hp (Hd & Hin & Hcover). split; [|split].
  - apply (distinct_keys_perm u); [symmetry; exact Hp|exact Hd].
  - intros x Hx. apply Hin. rewrite <- Hp. exact Hx.
  - intros x Hx. destruct (Hcover x Hx) as (y & Hy & Hk).
    exists y. split; [rewrite Hp; exact Hy|exact Hk].
Qed.

Lemma items_of_hashable (v : pyval) :
  collectable v = true -> Forall (fun x => hashable x = true) (items_of v).
Proof.
  unfold collectable, items_of. destruct (truthy v); simpl; [|constructor].
  destruct (py_iter v) as [items|e]; [|discriminate].
  intros H. apply Forall_forall. intros x Hx.
  rewrite forallb_forall in H. apply H, list_elem_of_In, Hx.
Qed.

Lemma collected_hashable (get : pydict -> pyval) (rs : results) :
  forallb (fun r => collectable (get (snd r))) rs = true ->
  Forall (fun x => hashable x = true) (collected get rs).
Proof.
  unfold collected. induction rs as [|r rs IH]; simpl; intros H; [constructor|].
  apply andb_true_iff in H as [Hr H].
  apply Forall_app. split; [apply items_of_hashable, Hr|apply IH, H].
Qed.

Lemma company_ok_collectable (cfg : config) (rs : results) :
  company_ok cfg rs = true ->
  forallb (fun r => collectable (company_points (snd r))) rs = true /\
  forallb (fun r => collectable (company_opps (snd r))) rs = true /\
  forallb (fun r => collectable (company_titles (snd r))) rs = true.
Proof.
  unfold company_ok. rewrite !forallb_forall. intros H.
  repeat split; intros r Hr; specialize (H r Hr);
    repeat (apply andb_true_iff in H as [H ?]); assumption.
Qed.



(** Seven distinct pain points are named; five are kept. *)
Example company2_pain_points :
  (c ← build_company_consensus id Examples.cfg352 Examples.company2;
   mret (c !! "pain_points"))
  = Ok (Some (PList [PStr "p1"; PStr "p2"; PStr "p3"; PStr "p4"; PStr "p5"])).
Proof. vm_compute. reflexivity. Qed.

(** ** The coordinators *)

Lemma select_models_from (cfg : config) (task : string) (models sel : list string) :
  Forall (configured cfg) models ->
  foldM (fun sel name =>
           c ← cfg_lookup cfg name;
           mret (if bool_decide (task ∈ tasks c) then sel ++ [name] else sel))
        sel models
  = Ok (sel ++ List.filter (eligible cfg task) models).
Proof.
  intros H. revert sel. induction H as [|name models [c Hc] _ IH]; intros sel; simpl.
  - rewrite app_nil_r. reflexivity.
  - unfold eligible at 1. rewrite Hc. simpl. rewrite IH.
    destruct (bool_decide (task ∈ tasks c)); [|reflexivity].
    rewrite <- app_assoc. reflexivity.
Qed.

Lemma select_models_spec (cfg : config) (task : string) (models : list string) :
  Forall (configured cfg) models ->
  select_models cfg models task = Ok (List.filter (eligible cfg task) models).
Proof. apply select_models_from. Qed.

Lemma setup_models_configured (cfg : config) : Forall (configured cfg) (setup_models cfg).
Proof.
  apply Forall_forall. intros name H.
  apply setup_models_spec in H as (c & H & _).
  apply (cfg_lookup_configured _ _ c), list_elem_of_In, H.
Qed.

Lemma classify_fold (call : string -> outcome) (names : list string)
    (valid : results) (mr : pydict) :
  foldl classify (valid, mr) (map (fun name => (name, call name)) names)
  = (valid ++ valid_of call names, responses_from call names mr).
Proof.
  unfold valid_of, responses_from, omap.
  revert valid mr. induction names as [|n names IH]; intros valid mr; simpl.
  - rewrite app_nil_r. reflexivity.
  - destruct (call n) as [msg|result]; simpl.
    + apply IH.
    + destruct (bool_decide (is_Some (result !! "error"))); simpl.
      * apply IH.
      * rewrite IH, <- app_assoc. reflexivity.
Qed.

Lemma responses_from_other (call : string -> outcome) (names : list string)
    (mr : pydict) (k : string) :
  k ∉ names -> responses_from call names mr !! k = mr !! k.
Proof.
  unfold responses_from. revert mr.
  induction names as [|n names IH]; intros mr Hk; simpl; [reflexivity|].
  apply not_elem_of_cons in Hk as [Hne Hk].
  rewrite (IH _ Hk). apply lookup_insert_ne. congruence.
Qed.

(** Every selected model's outcome is in [model_responses]. *)
Lemma responses_from_elem (call : string -> outcome) (names : list string)
    (mr : pydict) (k : string) :
  k ∈ names -> responses_from call names mr !! k = Some (PDict (recorded (call k))).
Proof.
  unfold responses_from. revert mr.
  induction names as [|n names IH]; intros mr Hk; simpl.
  - apply elem_of_nil in Hk. contradiction.
  - destruct (decide (k ∈ names)) as [Hin|Hnot].
    + apply IH, Hin.
    + apply elem_of_cons in Hk as [->|Hk]; [|contradiction].
      fold (responses_from call names (<[n := PDict (recorded (call n))]> mr)).
      rewrite (responses_from_other _ _ _ _ Hnot). apply lookup_insert_eq.
Qed.

Lemma valid_of_elem (call : string -> outcome) (names : list string)
    (name : string) (result : pydict) :
  (name, result) ∈ valid_of call names <->
  name ∈ names /\ call name = Returned result /\ result !! "error" = None.
Proof.
  unfold valid_of. rewrite list_elem_of_omap. split.
  - intros (n & Hn & H). destruct (call n) as [msg|r] eqn:E; [discriminate|].
    destruct (bool_decide (is_Some (r !! "error"))) eqn:Eb; [discriminate|].
    injection H as <- <-. split; [exact Hn|]. split; [exact E|].
    apply bool_decide_eq_false in Eb. apply eq_None_not_Some, Eb.
  - intros (Hn & E & Hr). exists name. split; [exact Hn|]. rewrite E.
    rewrite bool_decide_eq_false_2; [reflexivity|].
    rewrite Hr. intros [x Hx]. discriminate.
Qed.

Lemma valid_of_nil (call : string -> outcome) (names : list string) :
  (forall n, n ∈ names -> failed (call n) = true) -> valid_of call names = [].
Proof.
  unfold valid_of, omap. induction names as [|n names IH]; intros H; simpl; [reflexivity|].
  assert (Hn : failed (call n) = true) by (apply H, elem_of_cons; auto).
  unfold failed in Hn. destruct (call n) as [msg|r].
  - apply IH. intros k Hk. apply H, elem_of_cons. auto.
  - rewrite Hn. apply IH. intros k Hk. apply H, elem_of_cons. auto.
Qed.


(** The coordinator, by cases on the selected models and on the outcomes. *)
Lemma coordinate_spec (cfg : config) (models : list string) (task : string)
    (no_models no_valid : string) (call : string -> outcome)
    (build : results -> py pydict) (finish : results -> pydict -> pydict) :
  Forall (configured cfg) models ->
  coordinate cfg models task no_models no_valid call build finish
  = match List.filter (eligible cfg task) models with
    | [] => Ok (error_dict no_models)
    | _ :: _ =>
        let sel := List.filter (eligible cfg task) models in
        let mr := responses_from call sel ∅ in
        match valid_of call sel with
        | [] => Ok (<["model_responses" := PDict mr]> (error_dict no_valid))
        | _ :: _ =>
            consensus ← build (valid_of call sel);
            mret (finish (valid_of call sel)
                    (<["model_responses" := PDict mr]> consensus))
        end
    end.
Proof.
  intros Hc. unfold coordinate. rewrite (select_models_spec _ _ _ Hc).
  cbn [mbind py_bind].
  destruct (List.filter (eligible cfg task) models) as [|n sel] eqn:E; [reflexivity|].
  rewrite classify_fold. cbn [app]. reflexivity.
Qed.

Lemma positive_config_weight (cfg : config) (name : string) :
  positive_config cfg = true -> configured cfg name ->
  Qgtb (weight_of cfg name) 0 = true.
Proof.
  intros Hpos [c Hc]. unfold weight_of. rewrite Hc.
  unfold positive_config in Hpos. rewrite forallb_forall in Hpos.
  apply (Hpos (name, c)), cfg_lookup_In, Hc.
Qed.

Lemma eligible_models_registered (cfg : config) (task name : string) :
  name ∈ eligible_models cfg task -> name ∈ setup_models cfg.
Proof.
  unfold eligible_models. rewrite !list_elem_of_In, List.filter_In. tauto.
Qed.

Lemma valid_of_positive (cfg : config) (task : string) (call : string -> outcome) :
  positive_config cfg = true ->
  positive_weights cfg (valid_of call (eligible_models cfg task)) = true.
Proof.
  intros Hpos. unfold positive_weights. apply forallb_forall.
  intros [name result] Hin. apply list_elem_of_In, valid_of_elem in Hin as (Hn & _).
  apply eligible_models_registered in Hn.
  pose proof (setup_models_configured cfg) as Hall.
  rewrite Forall_forall in Hall. specialize (Hall _ Hn). simpl.
  apply andb_true_iff. split.
  - apply is_configured_true, Hall.
  - apply positive_config_weight; assumption.
Qed.

Lemma build_contact_consensus_keys (cfg : config) (models : list string)
    (rs : results) (c : pydict) (k : string) :
  build_contact_consensus cfg models rs = Ok c ->
  k ∉ contact_fields -> k <> "confidence_score" -> k <> "consensus_strength" ->
  c !! k = None.
Proof.
  unfold build_contact_consensus. intros H Hk H1 H2.
  apply bind_Ok in H as (a & _ & H).
  assert (Hc1 : Contact.pick (Contact.field_responses a) contact_defaults !! k = None).
  { rewrite (contact_pick_other _ _ _ Hk).
    unfold contact_defaults. apply not_elem_of_list_to_map_1.
    simpl. unfold contact_fields in Hk.
    rewrite !not_elem_of_cons in Hk. rewrite !not_elem_of_cons.
    destruct Hk as (? & ? & ? & ? & ? & ? & ? & _).
    repeat split; try assumption; try congruence.
    apply not_elem_of_nil. }
  apply bind_Ok in H as (c2 & Hc2 & H).
  assert (Hk2 : c2 !! k = None).
  { destruct (Contact.confidence_scores a) as [|x xs].
    - injection Hc2 as <-. exact Hc1.
    - apply bind_Ok in Hc2 as (total & _ & Hc2).
      apply bind_Ok in Hc2 as (q & _ & Hc2). injection Hc2 as <-.
      rewrite lookup_insert_ne by congruence. exact Hc1. }
  apply bind_Ok in H as (s & _ & H). injection H as <-.
  rewrite lookup_insert_ne by congruence. exact Hk2.
Qed.

(** The three ways [research_contact_consensus] ends, for the registered
    models of a configuration with positive weights. *)
Lemma research_contact_consensus_cases (cfg : config) (call : string -> outcome) :
  positive_config cfg = true ->
  (eligible_models cfg "contact_research" = [] /\
   research_contact_consensus cfg (setup_models cfg) call
   = Ok (error_dict "No models enabled for contact research")) \/
  (eligible_models cfg "contact_research" <> [] /\
   valid_of call (eligible_models cfg "contact_research") = [] /\
   research_contact_consensus cfg (setup_models cfg) call
   = Ok (<["model_responses" :=
             PDict (responses_from call (eligible_models cfg "contact_research") ∅)]>
           (error_dict "No valid responses from any model"))) \/
  (eligible_models cfg "contact_research" <> [] /\
   valid_of call (eligible_models cfg "contact_research") <> [] /\
   exists c,
     build_contact_consensus cfg (setup_models cfg)
       (valid_of call (eligible_models cfg "contact_research")) = Ok c /\
     research_contact_consensus cfg (setup_models cfg) call
     = Ok (<["models_used" :=
               PList (map (fun r => PStr (fst r))
                        (valid_of call (eligible_models cfg "contact_research")))]>
             (<["model_responses" :=
                  PDict (responses_from call (eligible_models cfg "contact_research") ∅)]>
                c))).
Proof.
  intros Hpos. unfold research_contact_consensus.
  rewrite (coordinate_spec _ _ _ _ _ _ _ _ (setup_models_configured cfg)).
  fold (eligible_models cfg "contact_research").
  destruct (eligible_models cfg "contact_research") as [|n sel] eqn:Esel.
  { left. auto. }
  right. rewrite <- Esel. cbv zeta.
  destruct (valid_of call (eligible_models cfg "contact_research")) as [|r valid] eqn:Ev.
  { left. rewrite Esel. split; [discriminate|]. split; reflexivity. }
  right. split; [rewrite Esel; discriminate|]. split; [discriminate|].
  rewrite <- Ev.
  destruct (build_contact_consensus_spec cfg (setup_models cfg)
              (valid_of call (eligible_models cfg "contact_research")))
    as (c & Hc & _).
  { unfold contact_ok. rewrite (valid_of_positive _ _ _ Hpos), Ev. simpl.
    assert (Hn : n ∈ setup_models cfg).
    { apply (eligible_models_registered _ "contact_research").
      rewrite Esel. apply elem_of_cons. auto. }
    destruct (setup_models cfg); [|reflexivity].
    apply elem_of_nil in Hn. contradiction. }
  exists c. split; [exact Hc|]. rewrite Hc. reflexivity.
Qed.

Lemma recorded_failed (out : outcome) :
  failed out = true -> is_Some (recorded out !! "error").
Proof.
  destruct out as [msg|result]; simpl.
  - intros _. exists (PStr msg). apply lookup_singleton_eq.
  - apply bool_decide_eq_true.
Qed.

Lemma valid_of_some (call : string -> outcome) (names : list string) (n : string) :
  n ∈ names -> failed (call n) = false -> valid_of call names <> [].
Proof.
  intros Hn Hf Hnil. unfold failed in Hf.
  destruct (call n) as [msg|result] eqn:E; [discriminate|].
  assert (Hin : (n, result) ∈ valid_of call names).
  { apply valid_of_elem. split; [exact Hn|]. split; [exact E|].
    apply bool_decide_eq_false in Hf. apply eq_None_not_Some, Hf. }
  rewrite Hnil in Hin. apply elem_of_nil in Hin. contradiction.
Qed.

(** C5: the contact coordinator returns for every batch.  With no enabled,
    eligible source the result is the error "No models enabled ..." alone;
    when sources were selected and all failed it is the other error, "No
    valid responses ...", with every source's failure under
    [model_responses] and no other entry; the two results differ, and a batch
    with a valid response yields no error. *)
Theorem coordinator_error_taxonomy (cfg : config) (call : string -> outcome) :
  positive_config cfg = true ->
  exists d,
    research_contact_consensus cfg (setup_models cfg) call = Ok d /\
    (eligible_models cfg "contact_research" = [] ->
     d = error_dict "No models enabled for contact research") /\
    (eligible_models cfg "contact_research" <> [] ->
     (forall n, n ∈ eligible_models cfg "contact_research" -> failed (call n) = true) ->
     d !! "error" = Some (PStr "No valid responses from any model") /\
     (exists mr,
        d !! "model_responses" = Some (PDict mr) /\
        forall n, n ∈ eligible_models cfg "contact_research" ->
          mr !! n = Some (PDict (recorded (call n))) /\
          is_Some (recorded (call n) !! "error")) /\
     (forall k, k <> "error" -> k <> "model_responses" -> d !! k = None) /\
     d <> error_dict "No models enabled for contact research") /\
    (forall n, n ∈ eligible_models cfg "contact_research" ->
       failed (call n) = false -> d !! "error" = None).
Proof.
  intros Hpos.
  destruct (research_contact_consensus_cases cfg call Hpos)
    as [[Hsel Hd]|[(Hsel & Hv & Hd)|(Hsel & Hv & c & Hc & Hd)]];
    rewrite Hd; eexists; (split; [reflexivity|]).
  - split; [reflexivity|]. split; [contradiction|].
    intros n Hn. rewrite Hsel in Hn. apply elem_of_nil in Hn. contradiction.
  - split; [contradiction|]. split.
    + intros _ Hall. split; [|split; [|split]].
      * rewrite lookup_insert_ne by discriminate. apply lookup_singleton_eq.
      * eexists. split; [apply lookup_insert_eq|].
        intros n Hn. split; [apply responses_from_elem, Hn|].
        apply recorded_failed, Hall, Hn.
      * intros k H1 H2. rewrite lookup_insert_ne by congruence.
        apply lookup_singleton_ne. congruence.
      * intros E.
        assert (H : (<["model_responses" :=
                        PDict (responses_from call
                                 (eligible_models cfg "contact_research") ∅)]>
                       (error_dict "No valid responses from any model") : pydict)
                    !! "error"
                    = error_dict "No models enabled for contact research" !! "error")
          by (rewrite E; reflexivity).
        rewrite lookup_insert_ne in H by discriminate.
        unfold error_dict in H. rewrite !lookup_singleton_eq in H. discriminate.
    + intros n Hn Hf. exfalso. exact (valid_of_some _ _ _ Hn Hf Hv).
  - split; [contradiction|]. split.
    + intros _ Hall. exfalso. apply Hv, valid_of_nil, Hall.
    + intros n Hn Hf. rewrite !lookup_insert_ne by discriminate.
      apply (build_contact_consensus_keys _ _ _ _ _ Hc); try discriminate.
      apply (bool_decide_unpack _). vm_compute. exact I.
Qed.

Lemma coordinator_error_taxonomy_witness :
  exists d,
    research_contact_consensus Examples.cfg352 (setup_models Examples.cfg352)
      (fun _ => Raised "timeout") = Ok d /\
    d !! "error" = Some (PStr "No valid responses from any model").
Proof.
  destruct (coordinator_error_taxonomy Examples.cfg352 (fun _ => Raised "timeout"))
    as (d & Hd & _ & Hall & _).
  - reflexivity.
  - exists d. split; [exact Hd|]. apply Hall.
    + vm_compute. discriminate.
    + intros n _. reflexivity.
Defined.


(** The other two coordinators report the same two conditions. *)
Lemma verify_email_consensus_errors (set_order : list pyval -> list pyval)
    (cfg : config) (call : string -> outcome) :
  (eligible_models cfg "email_verification" = [] ->
   verify_email_consensus set_order cfg (setup_models cfg) call
   = Ok (error_dict "No models enabled for email verification")) /\
  (eligible_models cfg "email_verification" <> [] ->
   (forall n, n ∈ eligible_models cfg "email_verification" -> failed (call n) = true) ->
   verify_email_consensus set_order cfg (setup_models cfg) call
   = Ok (<["model_responses" :=
             PDict (responses_from call (eligible_models cfg "email_verification") ∅)]>
           (error_dict "No valid responses"))).
Proof.
  unfold verify_email_consensus.
  rewrite (coordinate_spec _ _ _ _ _ _ _ _ (setup_models_configured cfg)).
  fold (eligible_models cfg "email_verification"). split.
  - intros ->. reflexivity.
  - intros Hne Hall.
    destruct (eligible_models cfg "email_verification") as [|n sel] eqn:E; [congruence|].
    cbv zeta. rewrite (valid_of_nil _ _ Hall). reflexivity.
Qed.

Lemma analyze_company_consensus_errors (set_order : list pyval -> list pyval)
    (cfg : config) (call : string -> outcome) :
  (eligible_models cfg "company_analysis" = [] ->
   analyze_company_consensus set_order cfg (setup_models cfg) call
   = Ok (error_dict "No models enabled for company analysis")) /\
  (eligible_models cfg "company_analysis" <> [] ->
   (forall n, n ∈ eligible_models cfg "company_analysis" -> failed (call n) = true) ->
   analyze_company_consensus set_order cfg (setup_models cfg) call
   = Ok (<["model_responses" :=
             PDict (responses_from call (eligible_models cfg "company_analysis") ∅)]>
           (error_dict "No valid responses"))).
Proof.
  unfold analyze_company_consensus.
  rewrite (coordinate_spec _ _ _ _ _ _ _ _ (setup_models_configured cfg)).
  fold (eligible_models cfg "company_analysis"). split.
  - intros ->. reflexivity.
  - intros Hne Hall.
    destruct (eligible_models cfg "company_analysis") as [|n sel] eqn:E; [congruence|].
    cbv zeta. rewrite (valid_of_nil _ _ Hall). reflexivity.
Qed.

(** ** The adapters *)





(** The text between the first opening and the last closing brace is decoded
    and labelled. *)
Example adapter_parses_embedded_object :
  adapter_call Examples.loads_empty OpenAI "gpt-4" Examples.openai_reply
  = Ok (PDict {[ "model" := PStr "OpenAI gpt-4" ]}).
Proof. vm_compute. reflexivity. Qed.

(** A failed exchange and a reply without an object are failure values. *)
Example adapter_failures :
  adapter_call Examples.loads_empty Claude "claude-3" (HttpRaised "503 Server Error")
  = Ok (PDict (error_dict "503 Server Error")) /\
  adapter_call Examples.loads_empty Claude "claude-3"
    (HttpBody (PDict {[ "content" := PList [PDict {[ "text" := PStr "no json" ]}] ]}))
  = Ok (PDict (error_dict "Parse error: Expecting value")).
Proof. split; vm_compute; reflexivity. Qed.

(** One source raising does not keep the others from the consensus. *)
Example batch_survives_a_failure :
  (c ← research_contact_consensus Examples.cfg352 (setup_models Examples.cfg352)
         (fun name => if String.eqb name "claude" then Raised "timeout"
                      else Returned Examples.vp_sales);
   mret (c !! "job_title", c !! "models_used"))
  = Ok (Some (PStr "VP Sales"), Some (PList [PStr "openai"; PStr "gemini"])).
Proof. vm_compute. reflexivity. Qed.

(** ** The order of the results *)

Section Order.
#[local] Open Scope Q_scope.




















End Order.

Section OrderOfResults.
#[local] Open Scope Q_scope.

Lemma plurality_winner_max (ops : list (pyval * Q)) (win : pyval) :
  plurality_winner ops win ->
  (exists w, (win, w) ∈ ops) /\
  forall o, o ∈ ops -> tally (fst o) ops <= tally win ops.
Proof.
  intros (pre & w & post & Heq & Hpre & Hpost). split.
  - exists w. rewrite Heq. apply elem_of_app. right. apply elem_of_cons. auto.
  - intros o Ho. rewrite Heq in Ho. apply elem_of_app in Ho as [Ho|Ho].
    + destruct (Hpre o Ho) as [_ H]. lra.
    + apply elem_of_cons in Ho as [->|Ho]; [simpl; lra|apply Hpost, Ho].
Qed.


Lemma heaviest_first_max (ops : list (pyval * Q)) (win : pyval) :
  heaviest_first ops win ->
  exists w, (win, w) ∈ ops /\ forall o, o ∈ ops -> snd o <= w.
Proof.
  intros (pre & w & post & Heq & Hpre & Hpost). exists w. split.
  - rewrite Heq. apply elem_of_app. right. apply elem_of_cons. auto.
  - intros o Ho. rewrite Heq in Ho. apply elem_of_app in Ho as [Ho|Ho].
    + specialize (Hpre o Ho). lra.
    + apply elem_of_cons in Ho as [->|Ho]; [simpl; lra|apply Hpost, Ho].
Qed.










End OrderOfResults.


(** The contact consensus depends on the order too: A (0.5), B (0.5), B (0.2)
    gives A, and B when the first two opinions are exchanged, although B's
    summed weight 0.7 exceeds A's 0.5. *)
Example contact_consensus_depends_on_order :
  (c ← build_contact_consensus Examples.cfg552 Examples.names3 Examples.titles_ABB;
   mret (c !! "job_title")) = Ok (Some (PStr "A")) /\
  (c ← build_contact_consensus Examples.cfg552 Examples.names3 Examples.titles_BAB;
   mret (c !! "job_title")) = Ok (Some (PStr "B")).
Proof. split; vm_compute; reflexivity. Qed.



(** * Further properties of the builders *)

Section BuilderEdges.
#[local] Open Scope Q_scope.

Lemma Qleb_true (a b : Q) : Qleb a b = true <-> a <= b.
Proof. unfold Qleb. destruct (Qlt_le_dec b a); split; intros; try lra; congruence. Qed.

Lemma plurality_winner_in (ops : list (pyval * Q)) (win : pyval) :
  plurality_winner ops win -> exists w, (win, w) ∈ ops.
Proof. intros H. apply plurality_winner_max in H as [H _]. exact H. Qed.

Lemma heaviest_first_in (ops : list (pyval * Q)) (win : pyval) :
  heaviest_first ops win -> exists w, (win, w) ∈ ops.
Proof. intros H. apply heaviest_first_max in H as (w & H & _). eauto. Qed.

End BuilderEdges.

(** X1: when all the opinions on [industry_type] (or on [company_size]) name
    one value, the company consensus holds that value, whatever the weights. *)
Theorem company_unanimous_value (set_order : list pyval -> list pyval)
    (cfg : config) (rs : results) (key : string) (get : pydict -> pyval) (v : pyval) :
  company_ok cfg rs = true ->
  (key = "industry_type" /\ get = company_industry) \/
  (key = "company_size" /\ get = company_size) ->
  scalar_opinions get cfg rs <> [] ->
  (forall o, o ∈ scalar_opinions get cfg rs -> fst o = v) ->
  exists c,
    build_company_consensus set_order cfg rs = Ok c /\ c !! key = Some v.
Proof.
  intros Hok Hkey Hne Hall.
  rewrite (build_company_consensus_spec _ _ _ Hok).
  destruct (company_ok_votable _ _ Hok) as [Hi Hs].
  eexists. split; [reflexivity|].
  destruct Hkey as [[-> ->]|[-> ->]].
  - change (Some (vote_winner (votes_of (scalar_opinions company_industry cfg rs) [])
                    (PStr "Other")) = Some v).
    f_equal.
    destruct (plurality_winner_in _ _
                (vote_winner_plurality _ (PStr "Other")
                   (scalar_opinions_hashable _ _ _ Hi) Hne)) as [w Hw].
    apply (Hall _ Hw).
  - change (Some (vote_winner (votes_of (scalar_opinions company_size cfg rs) [])
                    (PStr "Unknown")) = Some v).
    f_equal.
    destruct (plurality_winner_in _ _
                (vote_winner_plurality _ (PStr "Unknown")
                   (scalar_opinions_hashable _ _ _ Hs) Hne)) as [w Hw].
    apply (Hall _ Hw).
Qed.

Lemma company_unanimous_value_witness :
  exists c,
    build_company_consensus id Examples.cfg352 Examples.company2 = Ok c /\
    c !! "industry_type" = Some (PStr "REIT").
Proof.
  apply (company_unanimous_value id Examples.cfg352 Examples.company2
           "industry_type" company_industry (PStr "REIT")).
  - reflexivity.
  - left. split; reflexivity.
  - vm_compute. discriminate.
  - intros o Ho.
    assert (Hops : scalar_opinions company_industry Examples.cfg352 Examples.company2
                   = [(PStr "REIT", 3#10); (PStr "REIT", 2#10)])
      by (vm_compute; reflexivity).
    rewrite Hops in Ho.
    repeat (apply elem_of_cons in Ho as [->|Ho]; [reflexivity|]).
    apply elem_of_nil in Ho. contradiction.
Defined.

(** X2: when all the opinions on a contact field hold one value, the contact
    consensus holds that value, whatever the weights. *)
Theorem contact_unanimous_value (cfg : config) (models : list string)
    (rs : results) (field : string) (aliases : list string) (v : pyval) :
  contact_ok cfg models rs = true ->
  (field, aliases) ∈ field_mapping ->
  contact_opinions aliases cfg rs <> [] ->
  (forall o, o ∈ contact_opinions aliases cfg rs -> fst o = v) ->
  exists c,
    build_contact_consensus cfg models rs = Ok c /\ c !! field = Some v.
Proof.
  intros Hok Hin Hne Hall.
  destruct (build_contact_consensus_spec _ _ _ Hok) as (c & Hc & Hfield & _).
  exists c. split; [exact Hc|]. rewrite (Hfield _ _ Hin). f_equal.
  destruct (contact_opinions aliases cfg rs) as [|r ops] eqn:E; [congruence|].
  destruct (heaviest_first_in _ _ (heaviest_first_spec r ops PNone)) as [w Hw].
  apply (Hall _ Hw).
Qed.

Lemma contact_unanimous_value_witness :
  exists c,
    build_contact_consensus Examples.cfg352 Examples.names3
      Examples.contact_conf_words = Ok c /\
    c !! "job_title" = Some (PStr "Director").
Proof.
  apply (contact_unanimous_value Examples.cfg352 Examples.names3
           Examples.contact_conf_words "job_title"
           ["job_title"; "probable_title"; "title"] (PStr "Director")).
  - reflexivity.
  - apply elem_of_cons. left. reflexivity.
  - vm_compute. discriminate.
  - intros o Ho.
    assert (Hops : contact_opinions ["job_title"; "probable_title"; "title"]
                     Examples.cfg352 Examples.contact_conf_words
                   = [(PStr "Director", 3#10); (PStr "Director", 5#10)])
      by (vm_compute; reflexivity).
    rewrite Hops in Ho.
    repeat (apply elem_of_cons in Ho as [->|Ho]; [reflexivity|]).
    apply elem_of_nil in Ho. contradiction.
Defined.

(** ** When the builders return *)

Lemma cfg_lookup_unconfigured (cfg : config) (name : string) :
  is_configured cfg name = false -> cfg_lookup cfg name = Raise (KeyError name).
Proof.
  unfold is_configured. induction cfg as [|[n c] cfg IH]; simpl; [reflexivity|].
  destruct (String.eqb n name); [discriminate|exact IH].
Qed.

Lemma cfg_weight_unconfigured (cfg : config) (name : string) :
  is_configured cfg name = false -> cfg_weight cfg name = Raise (KeyError name).
Proof.
  intros H. unfold cfg_weight. rewrite (cfg_lookup_unconfigured _ _ H). reflexivity.
Qed.

Lemma vote_if_unvotable (v : pyval) (w : Q) (votes : list (pyval * Q)) :
  votable v = false -> vote_if v w votes = Raise (TypeError "unhashable type").
Proof.
  unfold votable, vote_if. destruct (truthy v), (hashable v); simpl;
    try discriminate. reflexivity.
Qed.

Lemma set_update_items_fail (items s : list pyval) :
  forallb hashable items = false ->
  foldM (fun s x => if hashable x then Ok (set_add x s)
                    else Raise (TypeError "unhashable type")) s items
  = Raise (TypeError "unhashable type").
Proof.
  revert s. induction items as [|x items IH]; intros s H; simpl in *; [discriminate|].
  destruct (hashable x); simpl in *; [apply IH, H|reflexivity].
Qed.

Lemma set_update_if_uncollectable (v : pyval) (s : list pyval) :
  collectable v = false -> exists msg, set_update_if s v = Raise (TypeError msg).
Proof.
  unfold collectable, set_update_if, set_update.
  destruct (truthy v); simpl; [|discriminate].
  destruct v as [|b|q|t|l|d]; simpl; intros H; eauto; try discriminate.
  - rewrite (set_update_items_fail _ _ H). eauto.
  - rewrite (set_update_items_fail _ _ H). eauto.
  - rewrite (set_update_items_fail _ _ H). eauto.
Qed.

Lemma company_step_ok (cfg : config) (a : Company.acc) (r : string * pydict) :
  company_result_ok cfg r = true -> exists a', Company.step cfg a r = Ok a'.
Proof.
  intros H.
  assert (Hl : company_ok cfg [r] = true).
  { unfold company_ok. simpl. rewrite andb_true_r. exact H. }
  apply (company_loop cfg [r] a) in Hl. simpl in Hl.
  destruct (Company.step cfg a r) as [a'|e]; [eauto|discriminate].
Qed.

Lemma company_step_fail (cfg : config) (a : Company.acc) (r : string * pydict) :
  company_result_ok cfg r = false ->
  exists e, Company.step cfg a r = Raise e /\ key_or_type_error e.
Proof.
  destruct r as [name result]. unfold company_result_ok. simpl. intros H.
  destruct (is_configured cfg name) eqn:Ec; simpl in H.
  2: { rewrite (cfg_weight_unconfigured _ _ Ec). simpl. eexists. split; [reflexivity|exact I]. }
  apply is_configured_true in Ec. rewrite (cfg_weight_configured _ _ Ec). simpl.
  destruct (votable (company_industry result)) eqn:E1; simpl in H.
  2: { rewrite (vote_if_unvotable _ _ _ E1). simpl. eexists. split; [reflexivity|exact I]. }
  rewrite (vote_if_votable _ _ _ E1). simpl.
  destruct (votable (company_size result)) eqn:E2; simpl in H.
  2: { rewrite (vote_if_unvotable _ _ _ E2). simpl. eexists. split; [reflexivity|exact I]. }
  rewrite (vote_if_votable _ _ _ E2). simpl.
  destruct (collectable (company_points result)) eqn:E3; simpl in H.
  2: { destruct (set_update_if_uncollectable _ (Company.pain_points a) E3) as [msg ->].
       simpl. eexists. split; [reflexivity|exact I]. }
  rewrite (set_update_if_collectable _ _ E3). simpl.
  destruct (collectable (company_opps result)) eqn:E4; simpl in H.
  2: { destruct (set_update_if_uncollectable _ (Company.opportunities a) E4) as [msg ->].
       simpl. eexists. split; [reflexivity|exact I]. }
  rewrite (set_update_if_collectable _ _ E4). simpl.
  destruct (set_update_if_uncollectable _ (Company.decision_makers a) H) as [msg ->].
  simpl. eexists. split; [reflexivity|exact I].
Qed.

Lemma company_ok_results (cfg : config) (rs : results) :
  company_ok cfg rs = forallb (company_result_ok cfg) rs.
Proof. reflexivity. Qed.









(** ** Bounds on the scores *)

Section ScoreBounds.
#[local] Open Scope Q_scope.

Lemma Qlen_cons {A : Type} (x : A) (l : list A) : Qlen (x :: l) == 1 + Qlen l.
Proof.
  unfold Qlen. cbn [length]. rewrite Nat2Z.inj_succ, <- Z.add_1_l, inject_Z_plus.
  reflexivity.
Qed.

Lemma weighted_scores_cons (get : pydict -> pyval) (cfg : config)
    (r : string * pydict) (rs : results) :
  weighted_scores get cfg (r :: rs)
  = match numeric (get (snd r)) with
    | Some c => (c * weight_of cfg (fst r)) :: weighted_scores get cfg rs
    | None => weighted_scores get cfg rs
    end.
Proof.
  unfold weighted_scores, omap. simpl.
  destruct (numeric (get (snd r))); reflexivity.
Qed.


(** The sum of [conf * weight] lies between 0 and 100 times the number of
    results when no weight exceeds 1. *)
Lemma weighted_scores_by_count (get : pydict -> pyval) (cfg : config) (rs : results) :
  positive_weights cfg rs = true ->
  weights_at_most_one cfg rs = true ->
  confidences_in_range get rs = true ->
  0 <= Qsum (weighted_scores get cfg rs) <= 100 * Qlen rs.
Proof.
  unfold positive_weights, weights_at_most_one, confidences_in_range.
  induction rs as [|r rs IH]; intros Hw H1 Hc; simpl in Hw, H1, Hc.
  - change (weighted_scores get cfg []) with (@nil Q).
    rewrite Qsum_nil.
    assert (E : Qlen (@nil (string * pydict)) == 0) by reflexivity.
    rewrite E. lra.
  - apply andb_true_iff in Hw as [Hr Hw]. apply andb_true_iff in Hc as [Hcr Hc].
    apply andb_true_iff in H1 as [Hr1 H1].
    apply andb_true_iff in Hr as [_ Hr]. apply Qgtb_true in Hr.
    apply Qleb_true in Hr1.
    specialize (IH Hw H1 Hc).
    rewrite weighted_scores_cons, Qlen_cons.
    destruct (numeric (get (snd r))) as [c|].
    + apply andb_true_iff in Hcr as [H0 H100].
      apply Qleb_true in H0. apply Qleb_true in H100.
      rewrite Qsum_cons. nra.
    + nra.
Qed.

Lemma Qdiv_between (x t : Q) : 0 < t -> 0 <= x <= 100 * t -> 0 <= x / t <= 100.
Proof.
  intros Ht [H0 H1]. split.
  - apply Qle_shift_div_l; [exact Ht|]. lra.
  - apply Qle_shift_div_r; [exact Ht|]. lra.
Qed.

End ScoreBounds.



(** X7: the [confidence_score] of the company consensus, a sum of
    [conf * weight] over the number of results, lies in [0,100] when the
    numeric confidences do and no weight exceeds 1. *)
Theorem company_confidence_in_range (set_order : list pyval -> list pyval)
    (cfg : config) (rs : results) :
  company_ok cfg rs = true ->
  positive_weights cfg rs = true ->
  weights_at_most_one cfg rs = true ->
  confidences_in_range company_conf rs = true ->
  exists c q,
    build_company_consensus set_order cfg rs = Ok c /\
    c !! "confidence_score" = Some (PNum q) /\ (0 <= q <= 100)%Q.
Proof.
  intros Hok Hw H1 Hc. rewrite (build_company_consensus_spec _ _ _ Hok).
  eexists; eexists. split; [reflexivity|]. split; [reflexivity|].
  unfold company_confidence.
  pose proof (weighted_scores_length company_conf cfg rs) as Hlen.
  destruct (weighted_scores company_conf cfg rs) as [|x ws] eqn:E.
  - split; [apply Qle_refl|discriminate].
  - rewrite <- E. apply Qdiv_between.
    + apply Qlen_pos. intros ->. simpl in Hlen. lia.
    + apply weighted_scores_by_count; assumption.
Qed.

Lemma company_confidence_in_range_witness :
  exists c q,
    build_company_consensus id Examples.cfg352 Examples.company_conf80 = Ok c /\
    c !! "confidence_score" = Some (PNum q) /\ (0 <= q <= 100)%Q.
Proof. apply company_confidence_in_range; reflexivity. Defined.

(** ** Defaults, first values and merged lists *)

Lemma truthy_values_first (get : pydict -> pyval) (pre post : results)
    (r : string * pydict) :
  (forall r', r' ∈ pre -> truthy (get (snd r')) = false) ->
  truthy (get (snd r)) = true ->
  head (truthy_values get (pre ++ r :: post)) = Some (get (snd r)).
Proof.
  unfold truthy_values. intros Hpre Hr.
  induction pre as [|r0 pre IH]; simpl.
  - rewrite Hr. reflexivity.
  - rewrite (Hpre r0) by (apply elem_of_cons; auto).
    apply IH. intros r' Hr'. apply Hpre, elem_of_cons. auto.
Qed.

Lemma truthy_values_none (get : pydict -> pyval) (rs : results) :
  (forall r, r ∈ rs -> truthy (get (snd r)) = false) -> truthy_values get rs = [].
Proof.
  unfold truthy_values. induction rs as [|r rs IH]; intros H; simpl; [reflexivity|].
  rewrite (H r) by (apply elem_of_cons; auto).
  apply IH. intros r' Hr'. apply H, elem_of_cons. auto.
Qed.

(** X8: a company field that no result names takes its default
    ([industry_type] "Other", [company_size] "Unknown", [website_url] [None]);
    [website_url] and [linkedin_company_url] otherwise hold the value of the
    first result that names one. *)
Theorem company_defaults_and_first_values (set_order : list pyval -> list pyval)
    (cfg : config) (rs : results) :
  company_ok cfg rs = true ->
  exists c,
    build_company_consensus set_order cfg rs = Ok c /\
    (scalar_opinions company_industry cfg rs = [] ->
     c !! "industry_type" = Some (PStr "Other")) /\
    (scalar_opinions company_size cfg rs = [] ->
     c !! "company_size" = Some (PStr "Unknown")) /\
    ((forall r, r ∈ rs -> truthy (company_website (snd r)) = false) ->
     c !! "website_url" = Some PNone) /\
    (forall pre r post,
        rs = pre ++ r :: post ->
        (forall r', r' ∈ pre -> truthy (company_website (snd r')) = false) ->
        truthy (company_website (snd r)) = true ->
        c !! "website_url" = Some (company_website (snd r))) /\
    (forall pre r post,
        rs = pre ++ r :: post ->
        (forall r', r' ∈ pre -> truthy (company_linkedin (snd r')) = false) ->
        truthy (company_linkedin (snd r)) = true ->
        c !! "linkedin_company_url" = Some (company_linkedin (snd r))).
Proof.
  intros Hok. rewrite (build_company_consensus_spec _ _ _ Hok).
  eexists. split; [reflexivity|].
  split; [|split; [|split; [|split]]].
  - intros E.
    change (Some (vote_winner (votes_of (scalar_opinions company_industry cfg rs) [])
                    (PStr "Other")) = Some (PStr "Other")).
    rewrite E. reflexivity.
  - intros E.
    change (Some (vote_winner (votes_of (scalar_opinions company_size cfg rs) [])
                    (PStr "Unknown")) = Some (PStr "Unknown")).
    rewrite E. reflexivity.
  - intros H.
    change (Some (default PNone (head (truthy_values company_website rs))) = Some PNone).
    rewrite (truthy_values_none _ _ H). reflexivity.
  - intros pre r post -> Hpre Hr.
    change (Some (default PNone
                    (head (truthy_values company_website (pre ++ r :: post))))
            = Some (company_website (snd r))).
    rewrite (truthy_values_first _ _ _ _ Hpre Hr). reflexivity.
  - intros pre r post -> Hpre Hr.
    change (Some (default PNone
                    (head (truthy_values company_linkedin (pre ++ r :: post))))
            = Some (company_linkedin (snd r))).
    rewrite (truthy_values_first _ _ _ _ Hpre Hr). reflexivity.
Qed.

Lemma company_defaults_and_first_values_witness :
  exists c,
    build_company_consensus id Examples.cfg352 Examples.company2 = Ok c /\
    c !! "company_size" = Some (PStr "Unknown") /\
    c !! "website_url" = Some (PStr "a.com").
Proof.
  destruct (company_defaults_and_first_values id Examples.cfg352 Examples.company2)
    as (c & Hc & _ & Hsize & _ & Hweb & _).
  - reflexivity.
  - exists c. split; [exact Hc|]. split.
    + apply Hsize. reflexivity.
    + refine (Hweb [] _ _ eq_refl _ _).
      * intros r' Hr'. apply elem_of_nil in Hr'. contradiction.
      * reflexivity.
Defined.



Lemma items_of_string (s : string) : items_of (PStr s) = characters s.
Proof.
  unfold items_of, characters. simpl.
  destruct s; reflexivity.
Qed.

Lemma pain_points_union (set_order : list pyval -> list pyval)
    (cfg : config) (rs : results) :
  (forall l, Permutation (set_order l) l) ->
  company_ok cfg rs = true ->
  exists c u,
    build_company_consensus set_order cfg rs = Ok c /\
    c !! "pain_points" = Some (PList (take 5 u)) /\
    dedup_union (collected company_points rs) u.
Proof.
  intros Hso Hok. rewrite (build_company_consensus_spec _ _ _ Hok).
  destruct (company_ok_collectable _ _ Hok) as (Hp & _ & _).
  eexists; eexists. split; [reflexivity|]. split; [reflexivity|].
  apply (dedup_union_perm _ _ _ (Hso _)), set_of_dedup_union, collected_hashable, Hp.
Qed.

(** X10: a result that gives its pain points as one string instead of a list
    contributes the characters of the string: the consensus of that result
    alone lists distinct one-character strings, at most five. *)
Theorem company_string_taken_apart (set_order : list pyval -> list pyval)
    (cfg : config) (name : string) (result : pydict) (s : string) :
  (forall l, Permutation (set_order l) l) ->
  company_ok cfg [(name, result)] = true ->
  company_points result = PStr s ->
  exists c u,
    build_company_consensus set_order cfg [(name, result)] = Ok c /\
    c !! "pain_points" = Some (PList (take 5 u)) /\
    dedup_union (characters s) u.
Proof.
  intros Hso Hok Hs.
  destruct (pain_points_union set_order cfg [(name, result)] Hso Hok)
    as (c & u & Hc & Hpp & Hu).
  exists c, u. split; [exact Hc|]. split; [exact Hpp|].
  unfold collected in Hu. simpl in Hu. rewrite Hs, items_of_string, app_nil_r in Hu.
  exact Hu.
Qed.

Lemma company_string_taken_apart_witness :
  exists c u,
    build_company_consensus id Examples.cfg352
      [("openai", Examples.company_string)] = Ok c /\
    c !! "pain_points" = Some (PList (take 5 u)) /\
    dedup_union (characters "billing") u.
Proof.
  apply company_string_taken_apart.
  - intros l. reflexivity.
  - reflexivity.
  - reflexivity.
Defined.

(** The seven letters of "billing" collapse to five entries. *)
Example company_string_pain_points :
  (c ← build_company_consensus id Examples.cfg352 [("openai", Examples.company_string)];
   mret (c !! "pain_points"))
  = Ok (Some (PList [PStr "b"; PStr "i"; PStr "l"; PStr "n"; PStr "g"])).
Proof. vm_compute. reflexivity. Qed.

(** * Further properties of the coordinators *)

Lemma valid_of_ext (call call' : string -> outcome) (names : list string) :
  (forall n, n ∈ names -> call n = call' n) ->
  valid_of call names = valid_of call' names.
Proof.
  unfold valid_of, omap. induction names as [|n names IH]; intros H; simpl; [reflexivity|].
  rewrite <- (H n) by (apply elem_of_cons; auto).
  rewrite IH; [reflexivity|]. intros k Hk. apply H, elem_of_cons. auto.
Qed.

Lemma responses_from_ext (call call' : string -> outcome) (names : list string)
    (mr : pydict) :
  (forall n, n ∈ names -> call n = call' n) ->
  responses_from call names mr = responses_from call' names mr.
Proof.
  unfold responses_from. revert mr.
  induction names as [|n names IH]; intros mr H; simpl; [reflexivity|].
  rewrite <- (H n) by (apply elem_of_cons; auto).
  apply IH. intros k Hk. apply H, elem_of_cons. auto.
Qed.

Lemma coordinate_ext (cfg : config) (task no_models no_valid : string)
    (call call' : string -> outcome)
    (build : results -> py pydict) (finish : results -> pydict -> pydict) :
  (forall n, n ∈ eligible_models cfg task -> call n = call' n) ->
  coordinate cfg (setup_models cfg) task no_models no_valid call build finish
  = coordinate cfg (setup_models cfg) task no_models no_valid call' build finish.
Proof.
  intros H. unfold eligible_models in H.
  rewrite !(coordinate_spec _ _ _ _ _ _ _ _ (setup_models_configured cfg)).
  cbv zeta.
  rewrite (valid_of_ext _ _ _ H), (responses_from_ext _ _ _ ∅ H). reflexivity.
Qed.

(** X11: a coordinator consults the registered, task-eligible models only:
    two batches whose outcomes agree on those models give the same result,
    whatever the other models (disabled, without key, or registered for other
    tasks) would have answered. *)
Theorem coordinators_consult_selected_only (set_order : list pyval -> list pyval)
    (cfg : config) (task : string) (call call' : string -> outcome) :
  (forall n, n ∈ eligible_models cfg task -> call n = call' n) ->
  (task = "contact_research" ->
   research_contact_consensus cfg (setup_models cfg) call
   = research_contact_consensus cfg (setup_models cfg) call') /\
  (task = "email_verification" ->
   verify_email_consensus set_order cfg (setup_models cfg) call
   = verify_email_consensus set_order cfg (setup_models cfg) call') /\
  (task = "company_analysis" ->
   analyze_company_consensus set_order cfg (setup_models cfg) call
   = analyze_company_consensus set_order cfg (setup_models cfg) call').
Proof.
  intros H. repeat split; intros ->; apply coordinate_ext, H.
Qed.

Lemma coordinators_consult_selected_only_witness :
  research_contact_consensus Examples.cfg_one_disabled
    (setup_models Examples.cfg_one_disabled)
    (fun n => if String.eqb n "claude" then Raised "timeout"
              else Returned Examples.vp_sales)
  = research_contact_consensus Examples.cfg_one_disabled
      (setup_models Examples.cfg_one_disabled)
      (fun _ => Returned Examples.vp_sales).
Proof.
  refine (proj1 (coordinators_consult_selected_only id Examples.cfg_one_disabled
                   "contact_research" _ _ _) eq_refl).
  intros n Hn.
  assert (Hsel : eligible_models Examples.cfg_one_disabled "contact_research" = ["openai"])
    by (vm_compute; reflexivity).
  rewrite Hsel in Hn. apply list_elem_of_singleton in Hn as ->. reflexivity.
Defined.


Lemma answered_elem (call : string -> outcome) (names : list string) (n : string) :
  n ∈ answered call names <-> n ∈ names /\ failed (call n) = false.
Proof.
  unfold answered. rewrite !list_elem_of_In, List.filter_In, Bool.negb_true_iff.
  reflexivity.
Qed.



(** X13: the email and the company coordinator report the same two
    conditions as the contact coordinator: without a registered, eligible
    model the error "No models enabled for ..." alone, and when every
    selected call fails the error "No valid responses" with every source's
    outcome under [model_responses]. *)
Theorem other_coordinators_error_taxonomy (set_order : list pyval -> list pyval)
    (cfg : config) (call : string -> outcome) :
  (eligible_models cfg "email_verification" = [] ->
   verify_email_consensus set_order cfg (setup_models cfg) call
   = Ok (error_dict "No models enabled for email verification")) /\
  (eligible_models cfg "email_verification" <> [] ->
   (forall n, n ∈ eligible_models cfg "email_verification" -> failed (call n) = true) ->
   verify_email_consensus set_order cfg (setup_models cfg) call
   = Ok (<["model_responses" :=
             PDict (responses_from call (eligible_models cfg "email_verification") ∅)]>
           (error_dict "No valid responses"))) /\
  (eligible_models cfg "company_analysis" = [] ->
   analyze_company_consensus set_order cfg (setup_models cfg) call
   = Ok (error_dict "No models enabled for company analysis")) /\
  (eligible_models cfg "company_analysis" <> [] ->
   (forall n, n ∈ eligible_models cfg "company_analysis" -> failed (call n) = true) ->
   analyze_company_consensus set_order cfg (setup_models cfg) call
   = Ok (<["model_responses" :=
             PDict (responses_from call (eligible_models cfg "company_analysis") ∅)]>
           (error_dict "No valid responses"))) /\
  (forall task n, n ∈ eligible_models cfg task ->
     responses_from call (eligible_models cfg task) ∅ !! n
     = Some (PDict (recorded (call n)))).
Proof.
  destruct (verify_email_consensus_errors set_order cfg call) as [H1 H2].
  destruct (analyze_company_consensus_errors set_order cfg call) as [H3 H4].
  repeat split; try assumption.
  intros task n Hn. apply responses_from_elem, Hn.
Qed.

Lemma company_step_fail_type (cfg : config) (a : Company.acc) (r : string * pydict) :
  configured cfg (fst r) ->
  company_result_ok cfg r = false ->
  exists msg, Company.step cfg a r = Raise (TypeError msg).
Proof.
  intros Hc H. destruct (company_step_fail cfg a r H) as (e & He & Hk).
  destruct r as [name result]. simpl in Hc.
  destruct e as [k|msg| | | |]; try contradiction; [|eauto].
  exfalso. simpl in He. rewrite (cfg_weight_configured _ _ Hc) in He. simpl in He.
  destruct (vote_if (company_industry result) (weight_of cfg name)
              (Company.industry_votes a)) as [iv|e1] eqn:E1; simpl in He.
  2: { unfold vote_if in E1.
       destruct (truthy (company_industry result)), (hashable (company_industry result));
         congruence. }
  destruct (vote_if (company_size result) (weight_of cfg name)
              (Company.size_votes a)) as [sv|e2] eqn:E2; simpl in He.
  2: { unfold vote_if in E2.
       destruct (truthy (company_size result)), (hashable (company_size result));
         congruence. }
  assert (Hset : forall s v k', set_update_if s v <> Raise (KeyError k')).
  { intros s v k' Hs.
    destruct (collectable v) eqn:Ecol.
    - rewrite (set_update_if_collectable _ _ Ecol) in Hs. discriminate.
    - destruct (set_update_if_uncollectable v s Ecol) as [msg Hm]. congruence. }
  destruct (set_update_if (Company.pain_points a) (company_points result))
    as [pp|e3] eqn:E3; simpl in He.
  2: { injection He as ->. exact (Hset _ _ _ E3). }
  destruct (set_update_if (Company.opportunities a) (company_opps result))
    as [op|e4] eqn:E4; simpl in He.
  2: { injection He as ->. exact (Hset _ _ _ E4). }
  destruct (set_update_if (Company.decision_makers a) (company_titles result))
    as [dm|e5] eqn:E5; simpl in He.
  2: { injection He as ->. exact (Hset _ _ _ E5). }
  discriminate.
Qed.

Lemma company_loop_fail_type (cfg : config) (rs : results) (a : Company.acc) :
  Forall (fun r => configured cfg (fst r)) rs ->
  company_ok cfg rs = false ->
  exists msg, foldM (Company.step cfg) a rs = Raise (TypeError msg).
Proof.
  rewrite company_ok_results. intros Hc. revert a.
  induction Hc as [|r rs Hr _ IH]; intros a H; simpl in H; [discriminate|].
  destruct (company_result_ok cfg r) eqn:E; simpl in H.
  - destruct (company_step_ok cfg a r E) as [a' Ha]. simpl. rewrite Ha. simpl.
    apply IH, H.
  - destruct (company_step_fail_type cfg a r Hr E) as (msg & He). simpl. rewrite He.
    simpl. eauto.
Qed.

Lemma valid_of_configured (cfg : config) (task : string) (call : string -> outcome) :
  Forall (fun r => configured cfg (fst r)) (valid_of call (eligible_models cfg task)).
Proof.
  apply Forall_forall. intros [name result] Hin.
  apply valid_of_elem in Hin as (Hn & _).
  apply eligible_models_registered in Hn.
  pose proof (setup_models_configured cfg) as Hall.
  rewrite Forall_forall in Hall. apply (Hall _ Hn).
Qed.

(** X14: the company coordinator does not shield the batch from a payload
    the builder cannot digest: when a response that counts as valid holds an
    unhashable industry or size, or list entries that cannot be merged, the
    whole analysis raises [TypeError], whatever the other sources answered. *)
Theorem company_coordinator_raises_on_payload (set_order : list pyval -> list pyval)
    (cfg : config) (call : string -> outcome) (n : string) (result : pydict) :
  n ∈ eligible_models cfg "company_analysis" ->
  call n = Returned result ->
  result !! "error" = None ->
  company_result_ok cfg (n, result) = false ->
  exists msg,
    analyze_company_consensus set_order cfg (setup_models cfg) call
    = Raise (TypeError msg).
Proof.
  intros Hn Hcall Herr Hbad.
  assert (Hin : (n, result) ∈ valid_of call (eligible_models cfg "company_analysis")).
  { apply valid_of_elem. auto. }
  assert (Hok : company_ok cfg (valid_of call (eligible_models cfg "company_analysis"))
                = false).
  { rewrite company_ok_results.
    destruct (forallb (company_result_ok cfg)
                (valid_of call (eligible_models cfg "company_analysis"))) eqn:E;
      [|reflexivity].
    rewrite forallb_forall in E. apply list_elem_of_In, E in Hin. congruence. }
  destruct (company_loop_fail_type cfg _ Company.acc0
              (valid_of_configured cfg "company_analysis" call) Hok) as [msg Hmsg].
  exists msg. unfold analyze_company_consensus.
  rewrite (coordinate_spec _ _ _ _ _ _ _ _ (setup_models_configured cfg)).
  fold (eligible_models cfg "company_analysis").
  destruct (eligible_models cfg "company_analysis") as [|m sel] eqn:Esel.
  { apply elem_of_nil in Hn. contradiction. }
  cbv zeta.
  destruct (valid_of call (m :: sel)) as [|r valid] eqn:Ev.
  { apply elem_of_nil in Hin. contradiction. }
  unfold build_company_consensus. rewrite Hmsg. reflexivity.
Qed.

Lemma company_coordinator_raises_on_payload_witness :
  exists msg,
    analyze_company_consensus id Examples.cfg352 (setup_models Examples.cfg352)
      (fun n => if String.eqb n "gemini" then Returned Examples.company_list_industry
                else Returned Examples.company_string)
    = Raise (TypeError msg).
Proof.
  apply (company_coordinator_raises_on_payload id Examples.cfg352 _ "gemini"
           Examples.company_list_industry).
  - vm_compute. apply elem_of_cons. right. apply elem_of_cons. right.
    apply elem_of_cons. left. reflexivity.
  - reflexivity.
  - reflexivity.
  - reflexivity.
Defined.

(** ** Registration *)

Lemma none_registers_empty (cfg : config) :
  none_registers cfg = true -> setup_models cfg = [].
Proof.
  intros H. apply elem_of_nil_inv. intros name Hn.
  apply setup_models_spec in Hn as (c & Hin & Hreg).
  unfold none_registers in H. rewrite forallb_forall in H.
  apply list_elem_of_In, H in Hin. simpl in Hin. rewrite Hreg in Hin. discriminate.
Qed.

(** X15: when every entry of the configuration is disabled, carries the
    placeholder key or names no known provider, as in the default
    configuration, no model is registered and each of the three coordinators
    returns its "No models enabled ..." error without consulting a source. *)
Theorem unregistered_config_disables_research (set_order : list pyval -> list pyval)
    (cfg : config) (call : string -> outcome) :
  none_registers cfg = true ->
  setup_models cfg = [] /\
  research_contact_consensus cfg (setup_models cfg) call
  = Ok (error_dict "No models enabled for contact research") /\
  verify_email_consensus set_order cfg (setup_models cfg) call
  = Ok (error_dict "No models enabled for email verification") /\
  analyze_company_consensus set_order cfg (setup_models cfg) call
  = Ok (error_dict "No models enabled for company analysis").
Proof.
  intros H. pose proof (none_registers_empty cfg H) as E.
  split; [exact E|].
  unfold research_contact_consensus, verify_email_consensus, analyze_company_consensus.
  rewrite !(coordinate_spec _ _ _ _ _ _ _ _ (setup_models_configured cfg)).
  rewrite E. simpl. auto.
Qed.

Lemma unregistered_config_disables_research_witness :
  setup_models default_config = [] /\
  research_contact_consensus default_config (setup_models default_config)
    (fun _ => Returned Examples.vp_sales)
  = Ok (error_dict "No models enabled for contact research") /\
  verify_email_consensus id default_config (setup_models default_config)
    (fun _ => Returned Examples.vp_sales)
  = Ok (error_dict "No models enabled for email verification") /\
  analyze_company_consensus id default_config (setup_models default_config)
    (fun _ => Returned Examples.vp_sales)
  = Ok (error_dict "No models enabled for company analysis").
Proof. apply unregistered_config_disables_research. reflexivity. Defined.

Lemma setup_models_shape (cfg : config) (acc : list string) :
  NoDup acc -> (forall n, n ∈ acc -> known_provider n = true) ->
  exists l,
    foldl (fun models '(name, c) =>
             if negb (enabled c) then models
             else if String.eqb (api_key c) (placeholder_key name) then models
             else if known_provider name then
                    if bool_decide (name ∈ models) then models else models ++ [name]
                  else models) acc cfg
    = acc ++ l /\
    NoDup (acc ++ l) /\
    (forall n, n ∈ l -> known_provider n = true) /\
    sublist l cfg.*1.
Proof.
  revert acc. induction cfg as [|[n c] cfg IH]; intros acc Hnd Hk; simpl.
  - exists []. rewrite app_nil_r. split; [reflexivity|]. split; [exact Hnd|].
    split; [|constructor].
    intros x Hx. apply elem_of_nil in Hx. contradiction.
  - assert (Hskip : exists l,
               foldl (fun models '(name, c) =>
                        if negb (enabled c) then models
                        else if String.eqb (api_key c) (placeholder_key name) then models
                        else if known_provider name then
                               if bool_decide (name ∈ models) then models
                               else models ++ [name]
                             else models) acc cfg
               = acc ++ l /\ NoDup (acc ++ l) /\
               (forall x, x ∈ l -> known_provider x = true) /\
               sublist l (n :: cfg.*1)).
    { destruct (IH acc Hnd Hk) as (l & H1 & H2 & H3 & H4).
      exists l. split; [exact H1|]. split; [exact H2|]. split; [exact H3|].
      apply sublist_cons, H4. }
    destruct (negb (enabled c)); [exact Hskip|].
    destruct (String.eqb (api_key c) (placeholder_key n)); [exact Hskip|].
    destruct (known_provider n) eqn:Ekn; [|exact Hskip].
    destruct (bool_decide (n ∈ acc)) eqn:Ein; [exact Hskip|].
    apply bool_decide_eq_false in Ein.
    destruct (IH (acc ++ [n])) as (l & H1 & H2 & H3 & H4).
    + apply NoDup_app. split; [exact Hnd|]. split.
      * intros x Hx Hx'. apply list_elem_of_singleton in Hx' as ->. contradiction.
      * apply NoDup_singleton.
    + intros x Hx. apply elem_of_app in Hx as [Hx|Hx]; [auto|].
      apply list_elem_of_singleton in Hx as ->. exact Ekn.
    + exists (n :: l). rewrite <- app_assoc in H1, H2. simpl in H1, H2.
      split; [exact H1|]. split; [exact H2|]. split.
      * intros x Hx. apply elem_of_cons in Hx as [->|Hx]; auto.
      * apply sublist_skip, H4.
Qed.

(** X16: [setup_models] registers every model once; the registered names are
    among the four providers, so at most four, and they keep the order of the
    configuration. *)
Theorem setup_models_structure (cfg : config) :
  NoDup (setup_models cfg) /\
  (forall n, n ∈ setup_models cfg ->
     n ∈ ["openai"; "claude"; "gemini"; "deepseek"]) /\
  (length (setup_models cfg) <= 4)%nat /\
  sublist (setup_models cfg) cfg.*1.
Proof.
  destruct (setup_models_shape cfg []) as (l & H1 & H2 & H3 & H4).
  { constructor. }
  { intros n Hn. apply elem_of_nil in Hn. contradiction. }
  simpl in H1, H2. unfold setup_models. rewrite H1.
  assert (Hin : forall n, n ∈ l -> n ∈ ["openai"; "claude"; "gemini"; "deepseek"]).
  { intros n Hn. specialize (H3 n Hn). unfold known_provider in H3.
    apply bool_decide_eq_true in H3. exact H3. }
  split; [exact H2|]. split; [exact Hin|]. split; [|exact H4].
  change 4%nat with (length ["openai"; "claude"; "gemini"; "deepseek"]).
  apply submseteq_length, NoDup_submseteq; assumption.
Qed.

(** * Further properties of the adapters *)

Section Strings.
#[local] Open Scope Z_scope.

Lemma length_append (s t : string) :
  String.length (s +:+ t) = (String.length s + String.length t)%nat.
Proof. induction s as [|a s IH]; simpl; [reflexivity|]. rewrite IH. reflexivity. Qed.

Lemma find_from_none (c : Ascii.ascii) (s : string) (i : Z) :
  has_char c s = false -> find_from c s i = -1.
Proof.
  revert i. induction s as [|a s IH]; intros i H; simpl in *; [reflexivity|].
  apply orb_false_iff in H as [-> H]. apply IH, H.
Qed.

Lemma find_from_first (c : Ascii.ascii) (s1 s2 : string) (i : Z) :
  has_char c s1 = false ->
  find_from c (s1 +:+ String c s2) i = i + Z.of_nat (String.length s1).
Proof.
  revert i. induction s1 as [|a s1 IH]; intros i H; simpl in *.
  - rewrite Ascii.eqb_refl. lia.
  - apply orb_false_iff in H as [-> H]. rewrite (IH _ H). lia.
Qed.

Lemma rfind_from_none (c : Ascii.ascii) (s : string) (i last : Z) :
  has_char c s = false -> rfind_from c s i last = last.
Proof.
  revert i last. induction s as [|a s IH]; intros i last H; simpl in *; [reflexivity|].
  apply orb_false_iff in H as [-> H]. apply IH, H.
Qed.

Lemma rfind_from_last (c : Ascii.ascii) (s1 s2 : string) (i last : Z) :
  has_char c s2 = false ->
  rfind_from c (s1 +:+ String c s2) i last = i + Z.of_nat (String.length s1).
Proof.
  intros H. revert i last. induction s1 as [|a s1 IH]; intros i last; simpl.
  - rewrite Ascii.eqb_refl, (rfind_from_none _ _ _ _ H). lia.
  - rewrite IH. lia.
Qed.

Lemma has_char_last (c : Ascii.ascii) (s : string) :
  has_char c s = true ->
  exists s1 s2, s = s1 +:+ String c s2 /\ has_char c s2 = false.
Proof.
  induction s as [|a s IH]; simpl; [discriminate|].
  destruct (has_char c s) eqn:E.
  - intros _. destruct (IH eq_refl) as (s1 & s2 & -> & H).
    exists (String a s1), s2. auto.
  - rewrite orb_false_r. intros Ha. apply Ascii.eqb_eq in Ha as ->.
    exists EmptyString, s. auto.
Qed.

Lemma substring_none (n : nat) (s : string) : String.substring n 0 s = EmptyString.
Proof.
  revert s. induction n as [|n IH]; intros s; destruct s; simpl; auto.
Qed.

Lemma substring_prefix (s t : string) :
  String.substring 0 (String.length s) (s +:+ t) = s.
Proof.
  induction s as [|a s IH]; simpl.
  - apply substring_none.
  - rewrite IH. reflexivity.
Qed.

Lemma substring_skip (s t : string) (m : nat) :
  String.substring (String.length s) m (s +:+ t) = String.substring 0 m t.
Proof. induction s as [|a s IH]; simpl; [reflexivity|exact IH]. Qed.

(** The span: what lies between the first opening and the last closing
    brace, braces included. *)
Lemma json_span_braces (pre mid post : string) :
  has_char "{"%char pre = false ->
  has_char "}"%char post = false ->
  json_span (pre +:+ String "{"%char (mid +:+ String "}"%char post))
  = String "{"%char (mid +:+ String "}"%char EmptyString).
Proof.
  intros Hpre Hpost.
  remember (pre +:+ String "{"%char (mid +:+ String "}"%char post)) as text eqn:T.
  remember (String.length pre) as a eqn:Ha.
  remember (String.length mid) as b eqn:Hb.
  remember (String.length post) as c eqn:Hc.
  assert (E : text = (pre +:+ String "{"%char mid) +:+ String "}"%char post).
  { rewrite T. clear. induction pre as [|x pre IH]; [reflexivity|].
    change (String x (pre +:+ String "{"%char (mid +:+ String "}"%char post))
            = String x ((pre +:+ String "{"%char mid) +:+ String "}"%char post)).
    f_equal. exact IH. }
  assert (F : str_find "{"%char text = Z.of_nat a).
  { unfold str_find. rewrite T, (find_from_first _ _ _ _ Hpre), Ha. lia. }
  assert (R : str_rfind "}"%char text = Z.of_nat (a + S b)).
  { unfold str_rfind. rewrite E, (rfind_from_last _ _ _ _ _ Hpost).
    rewrite length_append. cbn [String.length]. rewrite Ha, Hb. lia. }
  assert (L : String.length text = (a + S (b + S c))%nat).
  { rewrite T, length_append. cbn [String.length].
    rewrite length_append. cbn [String.length]. rewrite Ha, Hb, Hc. reflexivity. }
  unfold json_span, py_slice. rewrite F, R, L.
  assert (H1 : (Z.of_nat a <? 0) = false) by (apply Z.ltb_ge; lia).
  assert (H2 : (Z.of_nat (a + S b) + 1 <? 0) = false) by (apply Z.ltb_ge; lia).
  rewrite H1, H2.
  replace (Z.to_nat (Z.min (Z.of_nat a) (Z.of_nat (a + S (b + S c))))) with a by lia.
  replace (Z.to_nat (Z.min (Z.of_nat (a + S b) + 1) (Z.of_nat (a + S (b + S c)))
                     - Z.min (Z.of_nat a) (Z.of_nat (a + S (b + S c)))))
    with (S (b + 1)) by lia.
  rewrite T, Ha, substring_skip. simpl. f_equal.
  assert (E2 : mid +:+ String "}"%char post = (mid +:+ String "}"%char EmptyString) +:+ post).
  { clear. induction mid as [|x mid IH]; [reflexivity|].
    change (String x (mid +:+ String "}"%char post)
            = String x ((mid +:+ String "}"%char EmptyString) +:+ post)).
    f_equal. exact IH. }
  rewrite E2.
  replace (b + 1)%nat with (String.length (mid +:+ String "}"%char EmptyString)).
  - apply substring_prefix.
  - rewrite length_append, Hb. reflexivity.
Qed.

(** Without an opening brace the span is empty, or the closing brace that
    ends the text. *)
Lemma json_span_no_brace (text : string) :
  has_char "{"%char text = false ->
  json_span text = EmptyString \/ json_span text = String "}"%char EmptyString.
Proof.
  intros H.
  assert (F : str_find "{"%char text = -1).
  { unfold str_find. apply find_from_none, H. }
  unfold json_span. rewrite F.
  destruct (has_char "}"%char text) eqn:E.
  - destruct (has_char_last _ _ E) as (s1 & s2 & -> & H2).
    remember (String.length s1) as a eqn:Ha.
    assert (R : str_rfind "}"%char (s1 +:+ String "}"%char s2) = Z.of_nat a).
    { unfold str_rfind. rewrite (rfind_from_last _ _ _ _ _ H2), Ha. lia. }
    assert (L : String.length (s1 +:+ String "}"%char s2) = (a + S (String.length s2))%nat).
    { rewrite length_append, Ha. reflexivity. }
    unfold py_slice. rewrite R, L.
    assert (H1 : (-1 <? 0) = true) by reflexivity.
    assert (H3 : (Z.of_nat a + 1 <? 0) = false) by (apply Z.ltb_ge; lia).
    rewrite H1, H3.
    destruct s2 as [|x s2].
    + right. cbn [String.length].
      replace (Z.to_nat (Z.max (-1 + Z.of_nat (a + 1)) 0)) with a by lia.
      replace (Z.to_nat (Z.min (Z.of_nat a + 1) (Z.of_nat (a + 1))
                         - Z.max (-1 + Z.of_nat (a + 1)) 0)) with 1%nat by lia.
      rewrite Ha, substring_skip. reflexivity.
    + left. cbn [String.length].
      replace (Z.to_nat (Z.min (Z.of_nat a + 1) (Z.of_nat (a + S (S (String.length s2))))
                         - Z.max (-1 + Z.of_nat (a + S (S (String.length s2)))) 0))
        with 0%nat by lia.
      apply substring_none.
  - assert (R : str_rfind "}"%char text = -1).
    { unfold str_rfind. apply rfind_from_none, E. }
    rewrite R. left. unfold py_slice.
    assert (H1 : (-1 <? 0) = true) by reflexivity.
    assert (H3 : (-1 + 1 <? 0) = false) by reflexivity.
    rewrite H1, H3.
    replace (Z.to_nat (Z.min (-1 + 1) (Z.of_nat (String.length text))
                       - Z.max (-1 + Z.of_nat (String.length text)) 0))
      with 0%nat by lia.
    apply substring_none.
Qed.

End Strings.

Lemma contains_error_dict (d : pydict) :
  d !! "error" = None -> contains_error (PDict d) = Ok false.
Proof.
  intros H. unfold contains_error. f_equal.
  apply bool_decide_eq_false. rewrite H. intros [x Hx]. discriminate.
Qed.

Lemma adapter_call_dict (json_loads : string -> py pyval) (p : provider)
    (model_name : string) (d : pydict) :
  d !! "error" = None ->
  adapter_call json_loads p model_name (HttpBody (PDict d)) =
  match parse_reply json_loads p model_name (PDict d) with
  | Ok result => Ok result
  | Raise e => Ok (PDict (error_dict ("Parse error: " +:+ exn_str e)))
  end.
Proof.
  intros H. unfold adapter_call. cbn [make_request].
  rewrite (contains_error_dict _ H). reflexivity.
Qed.

Lemma parse_reply_text (json_loads : string -> py pyval) (p : provider)
    (model_name : string) (response : pyval) (text : string) :
  reply_content p response = Ok (PStr text) ->
  parse_reply json_loads p model_name response =
  match json_loads (json_span text) with
  | Ok (PDict d) => Ok (PDict (<["model" := PStr (provider_label p +:+ model_name)]> d))
  | Ok _ => Raise (TypeError "object does not support item assignment")
  | Raise e => Raise e
  end.
Proof.
  intros H. unfold parse_reply. rewrite H. cbn [mbind py_bind].
  fold (json_span text). destruct (json_loads (json_span text)) as [v|e]; reflexivity.
Qed.

(** X17: when the generated text has an opening brace and, after it, a
    closing brace, the adapter decodes exactly what lies between the first
    opening and the last closing brace, braces included, whatever surrounds
    it.  A decoded object is returned with its ["model"] entry set to the
    provider's label and the model name and every other entry as decoded; a
    decoding failure, or a decoded value that is not an object, is returned
    as a ["Parse error: ..."] result. *)
Theorem adapter_decodes_brace_span (json_loads : string -> py pyval) (p : provider)
    (model_name : string) (d : pydict) (pre mid post : string) :
  d !! "error" = None ->
  reply_content p (PDict d)
  = Ok (PStr (pre +:+ String "{"%char (mid +:+ String "}"%char post))) ->
  has_char "{"%char pre = false ->
  has_char "}"%char post = false ->
  let span := String "{"%char (mid +:+ String "}"%char EmptyString) in
  let out := adapter_call json_loads p model_name (HttpBody (PDict d)) in
  (forall obj, json_loads span = Ok (PDict obj) ->
     out = Ok (PDict (<["model" := PStr (provider_label p +:+ model_name)]> obj)) /\
     forall k, k <> "model" ->
       (<["model" := PStr (provider_label p +:+ model_name)]> obj) !! k = obj !! k) /\
  (forall e, json_loads span = Raise e ->
     out = Ok (PDict (error_dict ("Parse error: " +:+ exn_str e)))) /\
  (forall v, json_loads span = Ok v -> (forall obj, v <> PDict obj) ->
     exists msg, out = Ok (PDict (error_dict ("Parse error: " +:+ msg)))).
Proof.
  intros Hd Hc Hpre Hpost span out. unfold out.
  rewrite (adapter_call_dict _ _ _ _ Hd), (parse_reply_text _ _ _ _ _ Hc).
  rewrite (json_span_braces _ _ _ Hpre Hpost). fold span.
  split; [|split].
  - intros obj ->. split; [reflexivity|].
    intros k Hk. apply lookup_insert_ne. congruence.
  - intros e ->. reflexivity.
  - intros v -> Hv. destruct v as [| | | | |obj];
      try (eexists; reflexivity). destruct (Hv obj eq_refl).
Qed.

Lemma adapter_decodes_brace_span_witness :
  let d : pydict :=
    {[ "content" := PList [PDict {[ "text" := PStr "Here it is: {} Done." ]}] ]} in
  d !! "error" = None /\
  reply_content Claude (PDict d) = Ok (PStr "Here it is: {} Done.") /\
  has_char "{"%char "Here it is: " = false /\
  has_char "}"%char " Done." = false /\
  Examples.loads_empty "{}" = Ok (PDict ∅) /\
  adapter_call Examples.loads_empty Claude "claude-3" (HttpBody (PDict d))
  = Ok (PDict (<["model" := PStr "Claude claude-3"]> ∅)).
Proof.
  intros d.
  assert (H1 : d !! "error" = None) by (vm_compute; reflexivity).
  assert (H2 : reply_content Claude (PDict d)
               = Ok (PStr ("Here it is: " +:+ String "{"%char ("" +:+ String "}"%char " Done."))))
    by (vm_compute; reflexivity).
  assert (H3 : has_char "{"%char "Here it is: " = false) by reflexivity.
  assert (H4 : has_char "}"%char " Done." = false) by reflexivity.
  assert (H5 : Examples.loads_empty "{}" = Ok (PDict ∅)) by reflexivity.
  split; [exact H1|]. split; [exact H2|]. split; [exact H3|]. split; [exact H4|].
  split; [exact H5|].
  exact (proj1 (proj1 (adapter_decodes_brace_span Examples.loads_empty Claude "claude-3"
                         d "Here it is: " "" " Done." H1 H2 H3 H4) ∅ H5)).
Defined.

(** X18: generated text without any opening brace never yields a result:
    what the adapter hands to the decoder is then the empty text or a lone
    closing brace, so with a decoder that rejects both (as [json.loads]
    does) the adapter returns a ["Parse error: ..."] result. *)
Theorem adapter_without_brace_is_parse_error (json_loads : string -> py pyval)
    (p : provider) (model_name : string) (d : pydict) (text : string) :
  d !! "error" = None ->
  reply_content p (PDict d) = Ok (PStr text) ->
  has_char "{"%char text = false ->
  (exists e, json_loads "" = Raise e) ->
  (exists e, json_loads "}" = Raise e) ->
  exists msg,
    adapter_call json_loads p model_name (HttpBody (PDict d))
    = Ok (PDict (error_dict ("Parse error: " +:+ msg))).
Proof.
  intros Hd Hc Ht [e0 H0] [e1 H1].
  rewrite (adapter_call_dict _ _ _ _ Hd), (parse_reply_text _ _ _ _ _ Hc).
  destruct (json_span_no_brace _ Ht) as [-> | ->].
  - rewrite H0. eexists. reflexivity.
  - rewrite H1. eexists. reflexivity.
Qed.

Lemma adapter_without_brace_is_parse_error_witness :
  let d : pydict :=
    {[ "content" := PList [PDict {[ "text" := PStr "I cannot help with that}" ]}] ]} in
  d !! "error" = None /\
  reply_content Claude (PDict d) = Ok (PStr "I cannot help with that}") /\
  has_char "{"%char "I cannot help with that}" = false /\
  exists msg,
    adapter_call Examples.loads_empty Claude "claude-3" (HttpBody (PDict d))
    = Ok (PDict (error_dict ("Parse error: " +:+ msg))).
Proof.
  intros d.
  assert (H1 : d !! "error" = None) by (vm_compute; reflexivity).
  assert (H2 : reply_content Claude (PDict d) = Ok (PStr "I cannot help with that}"))
    by (vm_compute; reflexivity).
  assert (H3 : has_char "{"%char "I cannot help with that}" = false) by reflexivity.
  split; [exact H1|]. split; [exact H2|]. split; [exact H3|].
  apply (adapter_without_brace_is_parse_error Examples.loads_empty Claude "claude-3"
           d "I cannot help with that}" H1 H2 H3).
  - eexists. reflexivity.
  - eexists. reflexivity.
Defined.

(** X19: an adapter method lets an exception out exactly when the decoded
    body of the reply is [None], a boolean or a number: the test
    ["error" in response] stands before the [try].  A failed exchange comes
    back as its error result, and a body that mentions ["error"] comes back
    unchanged, both without the decoder being consulted. *)
Theorem adapter_raises_only_on_scalar_body (json_loads : string -> py pyval)
    (p : provider) (model_name : string) :
  (forall reply,
     (exists e, adapter_call json_loads p model_name reply = Raise e) <->
     (exists body, reply = HttpBody body /\ scalar_body body = true)) /\
  (forall msg,
     adapter_call json_loads p model_name (HttpRaised msg) = Ok (PDict (error_dict msg))) /\
  (forall body, contains_error body = Ok true ->
     adapter_call json_loads p model_name (HttpBody body) = Ok body).
Proof.
  split; [|split].
  - intros reply. split.
    + intros [e H]. destruct reply as [msg|body].
      * unfold adapter_call in H. cbn in H. discriminate.
      * exists body. split; [reflexivity|].
        destruct body as [|b|q|s|l|d]; try reflexivity; exfalso;
          unfold adapter_call in H; cbn [make_request contains_error mbind py_bind] in H.
        -- destruct (bool_decide _); [discriminate|].
           destruct (parse_reply _ _ _ _); discriminate.
        -- destruct (existsb _ _); [discriminate|].
           destruct (parse_reply _ _ _ _); discriminate.
        -- destruct (bool_decide _); [discriminate|].
           destruct (parse_reply _ _ _ _); discriminate.
    + intros (body & -> & H).
      destruct body; try discriminate; eexists; reflexivity.
  - intros msg. reflexivity.
  - intros body H. unfold adapter_call. cbn [make_request]. rewrite H. reflexivity.
Qed.

(** * The guard of the email verification *)






(** * [configure_model_selection] *)

Lemma cfg_lookup_set_tasks (cfg : config) (name : string) (ts : list string)
    (n : string) :
  cfg_lookup (set_tasks cfg name ts) n
  = match cfg_lookup cfg n with
    | Ok c =>
        Ok (if String.eqb n name
            then {| enabled := enabled c; api_key := api_key c;
                    model_name := model_name c; weight := weight c; tasks := ts |}
            else c)
    | Raise e => Raise e
    end.
Proof.
  induction cfg as [|[k c] cfg IH]; simpl; [reflexivity|].
  destruct (String.eqb k n) eqn:E; [|exact IH].
  apply String.eqb_eq in E. subst k. reflexivity.
Qed.

Lemma assigned_tasks_snoc (mt : list (string * list string)) (m : string)
    (ts : list string) (n : string) :
  assigned_tasks (mt ++ [(m, ts)]) n
  = if String.eqb m n then Some ts else assigned_tasks mt n.
Proof.
  unfold assigned_tasks. rewrite List.filter_app. simpl.
  destruct (String.eqb m n).
  - rewrite last_snoc. reflexivity.
  - rewrite app_nil_r. reflexivity.
Qed.

Lemma configure_model_selection_snoc (cfg : config)
    (mt : list (string * list string)) (m : string) (ts : list string) :
  configure_model_selection cfg (mt ++ [(m, ts)])
  = if is_configured (configure_model_selection cfg mt) m
    then set_tasks (configure_model_selection cfg mt) m ts
    else configure_model_selection cfg mt.
Proof. unfold configure_model_selection. rewrite foldl_app. reflexivity. Qed.

Lemma configure_model_selection_lookup (cfg : config)
    (mt : list (string * list string)) (n : string) :
  cfg_lookup (configure_model_selection cfg mt) n
  = match cfg_lookup cfg n with
    | Ok c =>
        Ok match assigned_tasks mt n with
           | Some ts =>
               {| enabled := enabled c; api_key := api_key c;
                  model_name := model_name c; weight := weight c; tasks := ts |}
           | None => c
           end
    | Raise e => Raise e
    end.
Proof.
  induction mt as [|[m ts] mt IH] using rev_ind.
  - simpl. destruct (cfg_lookup cfg n); reflexivity.
  - rewrite configure_model_selection_snoc, assigned_tasks_snoc.
    destruct (is_configured (configure_model_selection cfg mt) m) eqn:Ec.
    + rewrite cfg_lookup_set_tasks, IH.
      destruct (cfg_lookup cfg n) as [c|e]; [|reflexivity].
      rewrite (String.eqb_sym m n).
      destruct (String.eqb n m); [|reflexivity].
      destruct (assigned_tasks mt n); reflexivity.
    + rewrite IH. destruct (String.eqb m n) eqn:E; [|reflexivity].
      apply String.eqb_eq in E. subst m.
      unfold is_configured in Ec. rewrite IH in Ec.
      destruct (cfg_lookup cfg n); [discriminate|reflexivity].
Qed.

(** X21: what [configure_model_selection] changes and what it leaves.  The
    same names are configured afterwards, with the same weights, so a name
    the configuration does not have is ignored; and a coordinator run on the
    models registered at start-up then selects, in their order, those whose
    assigned task list holds the task, or, for a model [model_tasks] does
    not name, those that were eligible before.  No model that start-up left
    out is brought in. *)
Theorem configure_model_selection_effect (cfg : config)
    (model_tasks : list (string * list string)) (task : string) :
  let cfg' := configure_model_selection cfg model_tasks in
  (forall n, is_configured cfg' n = is_configured cfg n) /\
  (forall n, weight_of cfg' n = weight_of cfg n) /\
  select_models cfg' (setup_models cfg) task
  = Ok (List.filter (takes_part cfg model_tasks task) (setup_models cfg)) /\
  (forall sel n, select_models cfg' (setup_models cfg) task = Ok sel ->
     n ∈ sel -> n ∈ setup_models cfg).
Proof.
  intros cfg'.
  assert (Hc : forall n, is_configured cfg' n = is_configured cfg n).
  { intros n. unfold is_configured, cfg'.
    rewrite configure_model_selection_lookup.
    destruct (cfg_lookup cfg n); reflexivity. }
  assert (Hsel : select_models cfg' (setup_models cfg) task
                 = Ok (List.filter (takes_part cfg model_tasks task) (setup_models cfg))).
  { rewrite select_models_spec.
    - f_equal. apply List.filter_ext_in. intros n Hn.
      apply list_elem_of_In in Hn.
      pose proof (setup_models_configured cfg) as Hall.
      rewrite Forall_forall in Hall. destruct (Hall _ Hn) as [c Hl].
      unfold eligible, takes_part, cfg'.
      rewrite configure_model_selection_lookup, Hl.
      destruct (assigned_tasks model_tasks n); [reflexivity|].
      unfold eligible. rewrite Hl. reflexivity.
    - apply Forall_forall. intros n Hn.
      pose proof (setup_models_configured cfg) as Hall.
      rewrite Forall_forall in Hall. specialize (Hall _ Hn).
      apply is_configured_true. rewrite Hc. apply is_configured_true, Hall. }
  split; [exact Hc|]. split; [|split; [exact Hsel|]].
  - intros n. unfold weight_of, cfg'. rewrite configure_model_selection_lookup.
    destruct (cfg_lookup cfg n) as [c|e]; [|reflexivity].
    destruct (assigned_tasks model_tasks n); reflexivity.
  - intros sel n H Hn. rewrite Hsel in H. injection H as <-.
    apply list_elem_of_In, List.filter_In in Hn as [Hn _].
    apply list_elem_of_In, Hn.
Qed.
